(** * The foreign request relay and the user identity cache of [api.js]

    A shallow embedding of [src/extension/data/api.js]: the relay
    [sendRequest], its parameter-shaping wrappers ([getJSON], [post],
    [apiOauthPOST], [apiOauthGET], [apiOauthDELETE]), the memoised
    identity fetch ([userDetailsPromise], [getUserDetails], [getModhash],
    [getCurrentUser]), the moderator actions, the mod notes and
    [postComment].

    JavaScript values are an inductive type, objects are ordered property
    lists, and the effects of the module (messages posted over the
    extension transport, calls into [TBStorage]) are threaded through a
    state-and-exception monad over a [World] that also keeps the
    chronological trace of those effects. In that monad a promise is
    identified with the outcome it settles to; the identity promise is
    also followed while it is pending, event by event, with the callers
    that await it. *)

From Stdlib Require Import ZArith String List Sorted.
From stdpp Require Import base option list strings pretty gmap.

Set Warnings "-register-all".

Local Open Scope Z_scope.
Local Open Scope string_scope.
Local Open Scope list_scope.

(** ** JavaScript values *)

(** The values that cross the message transport and the JSON decoder.
    Numbers are restricted to integers: the only number the module inspects
    is an HTTP status code. *)
Inductive value : Type :=
  | VUndefined
  | VNull
  | VBool (b : bool)
  | VNum (n : Z)
  | VStr (s : string)
  | VArr (elems : list value)
  | VObj (props : list (string * value)).

(** [ToBoolean]: what an [if (x)] or an [x && y] tests. *)
Definition truthy (v : value) : bool :=
  match v with
  | VUndefined | VNull => false
  | VBool b => b
  | VNum n => negb (n =? 0)%Z
  | VStr s => negb (String.eqb s "")
  | VArr _ | VObj _ => true
  end.

(** [ToString], as [new Error(message)] applies it to its argument, on the
    values that [printable] below accepts. *)
Fixpoint to_string (v : value) : string :=
  match v with
  | VUndefined => "undefined"
  | VNull => "null"
  | VBool true => "true"
  | VBool false => "false"
  | VNum n => pretty n
  | VStr s => s
  | VArr elems =>
      let item x :=
        match x with VUndefined | VNull => "" | _ => to_string x end in
      (fix join (l : list value) : string :=
         match l with
         | [] => ""
         | [x] => item x
         | x :: rest => item x +:+ "," +:+ join rest
         end) elems
  | VObj _ => "[object Object]"
  end.

(** ** Objects as ordered property lists *)

Module Obj.

Fixpoint lookup (k : string) (props : list (string * value)) : option value :=
  match props with
  | [] => None
  | (k', v) :: rest => if String.eqb k k' then Some v else lookup k rest
  end.

(** An absent property reads as [undefined]. *)
Definition get (k : string) (props : list (string * value)) : value :=
  default VUndefined (lookup k props).

(** Defining a property: an existing key keeps its position and takes the
    new value, a new key is appended. *)
Fixpoint set (k : string) (v : value) (props : list (string * value))
  : list (string * value) :=
  match props with
  | [] => [(k, v)]
  | (k', v') :: rest =>
      if String.eqb k k' then (k, v) :: rest else (k', v') :: set k v rest
  end.

(** Characters of a string, each as a one-character string. *)
Fixpoint chars (s : string) : list value :=
  match s with
  | EmptyString => []
  | String c rest => VStr (String c EmptyString) :: chars rest
  end.

Definition indexed (l : list value) : list (string * value) :=
  imap (fun i x => (pretty i, x)) l.

(** The own enumerable properties an object spread [...src] copies:
    those of an object, the indices of an array or of a string, nothing
    for [undefined], [null], a boolean or a number. *)
Definition own_props (src : value) : list (string * value) :=
  match src with
  | VObj props => props
  | VArr elems => indexed elems
  | VStr s => indexed (chars s)
  | _ => []
  end.

(** [{ ...props, ...src }] *)
Definition spread (props : list (string * value)) (src : value)
  : list (string * value) :=
  fold_left (fun acc kv => set kv.1 kv.2 acc) (own_props src) props.

End Obj.

(** The values whose conversion to a string [to_string] computes. Left
    out are the two cases in which the language does something that
    [to_string] does not: a number outside the safe integers is printed
    with the shortest digits that identify it, in exponent form from
    [1e21] on, and an object that has a property [toString] of its own
    (never a function among these values) makes the conversion throw a
    [TypeError]. An array is converted through its elements. *)
Fixpoint printable (v : value) : bool :=
  match v with
  | VNum n => (Z.abs n <? 2 ^ 53)%Z
  | VArr elems => forallb printable elems
  | VObj props => negb (bool_decide (is_Some (Obj.lookup "toString" props)))
  | _ => true
  end.

(** The property [k] of a value that is an object; [undefined] otherwise. *)
Definition field (k : string) (v : value) : value :=
  match v with VObj props => Obj.get k props | _ => VUndefined end.

(** A parameter default [(x = d)]: it applies exactly when the argument is
    [undefined]. *)
Definition param_default (x d : value) : value :=
  match x with VUndefined => d | _ => x end.

(** ** Errors and settled promises *)

(** A thrown error object. [err_response] is the [response] attribute that
    [sendRequest] attaches; [None] means that the attribute is absent. *)
Record JsError (R : Type) : Type := mkError {
  err_name : string;
  err_message : string;
  err_response : option R
}.
Arguments mkError {R} _ _ _.
Arguments err_name {R} _.
Arguments err_message {R} _.
Arguments err_response {R} _.

(** [new Error(message)]: an [undefined] argument leaves the message empty,
    any other is converted to a string. *)
Definition Error_new {R} (message : value) : JsError R :=
  mkError "Error"
          (match message with VUndefined => "" | _ => to_string message end)
          None.

Definition TypeError {R} (message : string) : JsError R :=
  mkError "TypeError" message None.

(** What an awaited promise delivers. *)
Inductive Outcome (E A : Type) : Type :=
  | Resolved (a : A)
  | Rejected (e : E).
Arguments Resolved {E A} _.
Arguments Rejected {E A} _.

(** ** External collaborators *)

(** The parts of the host that the module calls and does not define: the
    Fetch API's [Response] class and [TBStorage.purifyObject]. The two laws
    are the part of the constructor's contract that the relay's callers
    observe: a response that was constructed from [(body, init)] reports the
    status of [init] and decodes to the text of [body]. *)
Class Platform : Type := {
  Response : Type;
  (** [new Response(...args)]; the constructor can throw. *)
  Response_new : list value -> JsError Response + Response;
  (** [response.status] *)
  Response_status : Response -> Z;
  (** what [response.text()] resolves to *)
  Response_text : Response -> string;
  (** what [response.json()] settles to *)
  Response_json : Response -> JsError Response + value;
  (** the state of [data] after [TBStorage.purifyObject(data)], which
      sanitises its argument in place *)
  purifyObject : value -> value;
  Response_new_status : forall body init rest r s,
    Response_new (body :: VObj init :: rest) = inr r ->
    Obj.lookup "status" init = Some (VNum s) ->
    200 <= s <= 599 ->
    Response_status r = s;
  Response_new_text : forall b rest r,
    Response_new (VStr b :: rest) = inr r ->
    Response_text r = b
}.

(** ** The world the module runs in *)

(** The observable effects, in the order they happen. *)
Inductive event : Type :=
  | EvSendMessage (message : value)
  | EvPurifyObject (data : value)
  | EvSetCache (ns key : string) (v : value)
  | EvGetCache (ns key : string).

Definition sent_message (e : event) : option value :=
  match e with EvSendMessage m => Some m | _ => None end.

Section api.
Context {host : Platform}.

Definition Err : Type := JsError Response.

(** [background n m] is how the promise of the [n]-th call (counting from
    zero) of [browser.runtime.sendMessage], made with message [m], settles:
    [inr reply] with the listener's reply, [inl e] when the transport itself
    fails. [cache] is the durable cache behind [TBStorage]. *)
Record World : Type := mkWorld {
  background : nat -> value -> Err + value;
  trace : list event;
  cache : gmap (string * string) value
}.

(** The messages posted so far, oldest first. *)
Definition sent (w : World) : list value := omap sent_message (trace w).

Definition record (e : event) (w : World) : World :=
  mkWorld (background w) (trace w ++ [e]) (cache w).

(** Computations of the module: they read and extend the world and settle
    to a value or to a thrown error. An [await] is the bind of this monad. *)
Definition M (A : Type) : Type := World -> Outcome Err A * World.

#[local] Instance M_ret : MRet M := fun A a w => (Resolved a, w).
#[local] Instance M_bind : MBind M := fun A B f m w =>
  match m w with
  | (Resolved a, w') => f a w'
  | (Rejected e, w') => (Rejected e, w')
  end.

Definition throw {A} (e : Err) : M A := fun w => (Rejected e, w).

Definition lift {A} (r : Err + A) : M A :=
  match r with inl e => throw e | inr a => mret a end.

(** [try { body } catch (error) { handler }] and [promise.catch(handler)]. *)
Definition try_catch {A} (body : M A) (handler : Err -> M A) : M A := fun w =>
  match body w with
  | (Resolved a, w') => (Resolved a, w')
  | (Rejected e, w') => handler e w'
  end.

(** Awaiting a promise that is held in a variable delivers its outcome. *)
Definition await {A} (p : Outcome Err A) : M A := fun w => (p, w).

(** The property read [v.p] on own data properties: it throws on
    [undefined] and [null] and yields [undefined] for a missing property.
    Methods inherited from prototypes are not represented. *)
Definition member (v : value) (p : string) : M value :=
  match v with
  | VUndefined | VNull =>
      throw (TypeError ("Cannot read properties of " +:+ to_string v))
  | VObj props => mret (Obj.get p props)
  | VArr elems =>
      mret (if String.eqb p "length" then VNum (Z.of_nat (length elems))
            else Obj.get p (Obj.indexed elems))
  | VStr s =>
      mret (if String.eqb p "length" then VNum (Z.of_nat (String.length s))
            else Obj.get p (Obj.indexed (Obj.chars s)))
  | VBool _ | VNum _ => mret VUndefined
  end.

(** The argument spread [f(...v)]: arrays and strings are iterable, every
    other value of the model makes the spread throw. *)
Definition spread_args (v : value) : M (list value) :=
  match v with
  | VArr elems => mret elems
  | VStr s => mret (Obj.chars s)
  | _ => throw (TypeError (to_string v +:+ " is not iterable"))
  end.

(** [browser.runtime.sendMessage(message)] *)
Definition runtime_sendMessage (message : value) : M value := fun w =>
  let w' := record (EvSendMessage message) w in
  match background w (length (sent w)) message with
  | inr reply => (Resolved reply, w')
  | inl e => (Rejected e, w')
  end.

(** ** The relay *)

Definition with_response (error : Err) (r : Response) : Err :=
  mkError (err_name error) (err_message error) (Some r).

(** The message object [{action: 'tb-request', method, endpoint, query,
    body, oauth, okOnly}]. *)
Definition tb_request (method endpoint query body oauth okOnly : value)
  : value :=
  VObj [("action", VStr "tb-request"); ("method", method);
        ("endpoint", endpoint); ("query", query); ("body", body);
        ("oauth", oauth); ("okOnly", okOnly)].

(** The message a descriptor with the properties [props] is relayed as. *)
Definition request_message (props : list (string * value)) : value :=
  tb_request (Obj.get "method" props) (Obj.get "endpoint" props)
             (Obj.get "query" props) (Obj.get "body" props)
             (Obj.get "oauth" props) (Obj.get "okOnly" props).

Definition sendRequest (options : value) : M Response :=
  method ← member options "method";
  endpoint ← member options "endpoint";
  query ← member options "query";
  body ← member options "body";
  oauth ← member options "oauth";
  okOnly ← member options "okOnly";
  messageReply ← runtime_sendMessage
    (tb_request method endpoint query body oauth okOnly);
  reply_error ← member messageReply "error";
  if truthy reply_error then
    message ← member messageReply "message";
    let error := Error_new message in
    response ← member messageReply "response";
    if truthy response then
      response ← member messageReply "response";
      args ← spread_args response;
      r ← lift (Response_new args);
      throw (with_response error r)
    else
      throw error
  else
    response ← member messageReply "response";
    args ← spread_args response;
    r ← lift (Response_new args);
    mret r.

(** ** The derived wrappers *)

(** The object literal each wrapper passes to [sendRequest]. *)
Definition getJSON_options (endpoint query options : value) : value :=
  let query := param_default query (VObj []) in
  let options := param_default options (VObj []) in
  VObj (Obj.spread [("okOnly", VBool true); ("method", VStr "GET");
                    ("endpoint", endpoint); ("query", query)] options).

Definition post_options (endpoint body options : value) : value :=
  let options := param_default options (VObj []) in
  VObj (Obj.spread [("okOnly", VBool true); ("method", VStr "POST");
                    ("endpoint", endpoint); ("body", body)] options).

Definition apiOauthPOST_options (endpoint body options : value) : value :=
  let options := param_default options (VObj []) in
  VObj (Obj.spread [("method", VStr "POST"); ("oauth", VBool true);
                    ("endpoint", endpoint); ("body", body);
                    ("okOnly", VBool true)] options).

Definition apiOauthGET_options (endpoint query : value) : value :=
  VObj [("method", VStr "GET"); ("oauth", VBool true);
        ("endpoint", endpoint); ("query", query); ("okOnly", VBool true)].

Definition apiOauthDELETE_options (endpoint query : value) : value :=
  VObj [("method", VStr "DELETE"); ("oauth", VBool true);
        ("endpoint", endpoint); ("query", query); ("okOnly", VBool true)].

Definition getJSON (endpoint query options : value) : M value :=
  response ← sendRequest (getJSON_options endpoint query options);
  lift (Response_json response).

Definition post (endpoint body options : value) : M value :=
  response ← sendRequest (post_options endpoint body options);
  lift (Response_json response).

Definition apiOauthPOST (endpoint body options : value) : M Response :=
  sendRequest (apiOauthPOST_options endpoint body options).

Definition apiOauthGET (endpoint query : value) : M Response :=
  sendRequest (apiOauthGET_options endpoint query).

Definition apiOauthDELETE (endpoint query : value) : M Response :=
  sendRequest (apiOauthDELETE_options endpoint query).

(** ** TBStorage *)

(** [TBStorage.purifyObject(data)]: the sanitiser rewrites [data] in place;
    the computation returns the state of [data] afterwards. *)
Definition TBStorage_purifyObject (data : value) : M value := fun w =>
  (Resolved (purifyObject data), record (EvPurifyObject data) w).

(** Modelled from the spec: [TBStorage.setCache], whose source is not part
    of the module. The durable cache is a flat key-value store keyed by a
    namespace and a key; a write replaces what the pair held. *)
Definition TBStorage_setCache (ns key : string) (v : value) : M unit := fun w =>
  (Resolved tt,
   mkWorld (background w) (trace w ++ [EvSetCache ns key v])
           (<[(ns, key) := v]> (cache w))).

(** Modelled from the spec: [TBStorage.getCache], whose source is not part
    of the module. It reads the value previously persisted under the pair,
    [undefined] if nothing was ever stored. *)
Definition TBStorage_getCache (ns key : string) : M value := fun w =>
  (Resolved (default VUndefined (cache w !! (ns, key))),
   record (EvGetCache ns key) w).

(** ** The user identity cache *)

(** The message that [getJSON('/api/me.json')] is relayed as. *)
Definition me_request : value :=
  tb_request (VStr "GET") (VStr "/api/me.json") (VObj []) VUndefined
             VUndefined (VBool true).

(** The body of the [try] block of [fetchUserDetails]. *)
Definition fetchUserDetails_try : M value :=
  data ← getJSON (VStr "/api/me.json") VUndefined VUndefined;
  data ← TBStorage_purifyObject data;
  _ ← TBStorage_setCache "Utils" "userDetails" data;
  mret data.

(** [error.response && error.response.status === 504] *)
Definition gateway_timeout (error : Err) : bool :=
  match err_response error with
  | Some response => (Response_status response =? 504)%Z
  | None => false
  end.

(** [fetchUserDetails (tries = 3)]; the budget is a natural number, and the
    recursive call on [tries - 1] is only reached when [tries > 1]. *)
Fixpoint fetchUserDetails (tries : nat) : M value :=
  try_catch fetchUserDetails_try (fun error =>
    if gateway_timeout error && (1 <? tries)%nat then
      match tries with
      | S tries' => fetchUserDetails tries'
      | O => throw error
      end
    else
      throw error).

(** The world in which attempt number [k] (counting from zero) of a fetch
    sequence started in [w] runs: the world that the attempts before it
    leave behind. *)
Definition attempt_world (k : nat) (w : World) : World :=
  Nat.iter k (fun w => (fetchUserDetails_try w).2) w.

(** The module-level constant [userDetailsPromise]: the immediately invoked
    [fetchUserDetails()] followed by its [.catch]. *)
Definition userDetailsPromise_init : M value :=
  try_catch (fetchUserDetails 3)
            (fun _ => TBStorage_getCache "Utils" "userDetails").

(** The state of the loaded module: the one promise it holds. *)
Record ApiModule : Type := mkModule {
  userDetailsPromise : Outcome Err value
}.

(** Evaluating the module: the initialiser of [userDetailsPromise] runs
    then, before any exported function can be called. *)
Definition module_load (w : World) : ApiModule * World :=
  let '(p, w') := userDetailsPromise_init w in (mkModule p, w').

Definition getUserDetails (m : ApiModule) : Outcome Err value :=
  userDetailsPromise m.

Definition getModhash (m : ApiModule) : M value :=
  userDetails ← await (getUserDetails m);
  data ← member userDetails "data";
  member data "modhash".

Definition getCurrentUser (m : ApiModule) : M value :=
  userDetails ← await (getUserDetails m);
  data ← member userDetails "data";
  member data "name".

(** The world after a successful attempt that started in [w]: the request
    was posted, the data sanitised and the result stored. *)
Definition stored_world (data : value) (w : World) : World :=
  mkWorld (background w)
          (trace w ++ [EvSendMessage me_request; EvPurifyObject data;
                       EvSetCache "Utils" "userDetails" (purifyObject data)])
          (<[("Utils", "userDetails") := purifyObject data]> (cache w)).

(** A computation is pure when it neither reads nor changes the world: it
    settles to the same outcome wherever it runs. *)
Definition pure {A} (m : M A) : Prop :=
  exists outcome, forall w, m w = (outcome, w).

(** Callers of the identity cache, one after the other. *)
Inductive api_call : Type :=
  | CallGetUserDetails
  | CallGetModhash
  | CallGetCurrentUser.

Definition call (m : ApiModule) (c : api_call) : M value :=
  match c with
  | CallGetUserDetails => await (getUserDetails m)
  | CallGetModhash => getModhash m
  | CallGetCurrentUser => getCurrentUser m
  end.

Fixpoint run_calls (m : ApiModule) (calls : list api_call) (w : World)
  : list (Outcome Err value) * World :=
  match calls with
  | [] => ([], w)
  | c :: rest =>
      let '(outcome, w1) := call m c w in
      let '(outcomes, w2) := run_calls m rest w1 in
      (outcome :: outcomes, w2)
  end.

End api.

(** ** The relay as a function of the reply *)

(** What the read [v.p] yields when it does not throw. *)
Definition own_read (v : value) (p : string) : option value :=
  match v with
  | VUndefined | VNull => None
  | VObj props => Some (Obj.get p props)
  | VArr elems =>
      Some (if String.eqb p "length" then VNum (Z.of_nat (length elems))
            else Obj.get p (Obj.indexed elems))
  | VStr s =>
      Some (if String.eqb p "length" then VNum (Z.of_nat (String.length s))
            else Obj.get p (Obj.indexed (Obj.chars s)))
  | VBool _ | VNum _ => Some VUndefined
  end.

(** The elements that a spread [...v] yields when [v] is iterable. *)
Definition iterable (v : value) : option (list value) :=
  match v with
  | VArr elems => Some elems
  | VStr s => Some (Obj.chars s)
  | _ => None
  end.

(** How often a key occurs in a list of keys. *)
Fixpoint occurrences (k : string) (keys : list string) : Z :=
  match keys with
  | [] => 0
  | k' :: rest => (if String.eqb k k' then 1 else 0) + occurrences k rest
  end.

Section relay_outcome.
Context {host : Platform}.

(** How a call of the relay settles once its message got the reply
    [reply]; [sendRequest_settles] shows that [sendRequest] computes it. *)
Definition relay_outcome (reply : value) : Outcome Err Response :=
  match own_read reply "error", own_read reply "message",
        own_read reply "response" with
  | Some error, Some message, Some response =>
      let construct (wrap : Response -> Outcome Err Response) :=
        match iterable response with
        | Some args =>
            match Response_new args with
            | inr r => wrap r
            | inl thrown => Rejected thrown
            end
        | None => Rejected (TypeError (to_string response +:+ " is not iterable"))
        end in
      if truthy error then
        if truthy response
        then construct (fun r => Rejected (with_response (Error_new message) r))
        else Rejected (Error_new message)
      else construct Resolved
  | _, _, _ =>
      Rejected (TypeError ("Cannot read properties of " +:+ to_string reply))
  end.

End relay_outcome.

(** ** The rest of the module: moderator actions and mod notes *)

(** The names every plain object inherits from [Object.prototype]. *)
Definition inherited_keys : list string :=
  ["constructor"; "__proto__"; "hasOwnProperty"; "isPrototypeOf";
   "propertyIsEnumerable"; "toLocaleString"; "toString"; "valueOf";
   "__defineGetter__"; "__defineSetter__"; "__lookupGetter__";
   "__lookupSetter__"].

(** *** The order in which the properties of an object are enumerated *)

(** The number that a string of decimal digits writes. *)
Fixpoint digits_value (s : string) (acc : N) : option N :=
  match s with
  | EmptyString => Some acc
  | String c rest =>
      let d := Ascii.N_of_ascii c in
      if (48 <=? d)%N && (d <=? 57)%N
      then digits_value rest (10 * acc + (d - 48))%N
      else None
  end.

(** An array index is a key that is the decimal text, without sign or
    leading zero, of an integer from [0] to [2^32 - 2]. *)
Definition array_index (k : string) : option N :=
  match digits_value k 0 with
  | Some n =>
      if String.eqb (pretty n) k && (n <? 4294967295)%N then Some n else None
  | None => None
  end.

Definition is_index (p : string * value) : bool :=
  bool_decide (is_Some (array_index p.1)).

Definition index_of (p : string * value) : N := default 0%N (array_index p.1).

Fixpoint insert_index (p : string * value) (sorted : list (string * value))
  : list (string * value) :=
  match sorted with
  | [] => [p]
  | q :: rest =>
      if (index_of p <? index_of q)%N then p :: sorted
      else q :: insert_index p rest
  end.

(** The own properties of an object in the order in which they are
    enumerated: the array indices in ascending order, then the other keys
    in the order in which they were created. *)
Definition enumerate (props : list (string * value)) : list (string * value) :=
  foldr insert_index [] (List.filter is_index props)
  ++ List.filter (fun p => negb (is_index p)) props.

Section more.
Context {host : Platform}.

(** Three conversions of the language runtime that the integer model of
    numbers does not compute: [native_source k] is the text that the
    function [Object.prototype[k]] converts to, [string_gt_zero s] tells
    whether the number that the string [s] converts to is greater than
    zero, and [number_text n] is the text of a number [n] outside the safe
    integers. *)
Variable native_source : string -> string.
Variable string_gt_zero : string -> bool.
Variable number_text : Z -> string.

#[local] Existing Instances M_ret M_bind.

(** *** Conversion to a string *)

(** [ToString], as a template literal, a property key and [join] apply it:
    the text of a value, or [None] where the conversion throws. An object
    converts through [toString]: the inherited one gives
    [[object Object]]; a property of that name of the object's own is not a
    function, and then neither it nor the inherited [valueOf] gives a
    primitive value. An array converts through [join]: the texts of its
    elements, empty for [undefined] and [null], separated by commas. *)
Fixpoint js_text (v : value) : option string :=
  match v with
  | VUndefined => Some "undefined"
  | VNull => Some "null"
  | VBool true => Some "true"
  | VBool false => Some "false"
  | VNum n => Some (if (Z.abs n <? 2 ^ 53)%Z then pretty n else number_text n)
  | VStr s => Some s
  | VArr elems =>
      let item x :=
        match x with VUndefined | VNull => Some "" | _ => js_text x end in
      (fix join (l : list value) : option string :=
         match l with
         | [] => Some ""
         | [x] => item x
         | x :: rest =>
             match item x, join rest with
             | Some a, Some b => Some (a +:+ "," +:+ b)
             | _, _ => None
             end
         end) elems
  | VObj props =>
      if bool_decide (is_Some (Obj.lookup "toString" props)) then None
      else Some "[object Object]"
  end.

Definition to_text (v : value) : M string :=
  match js_text v with
  | Some s => mret s
  | None => throw (TypeError "Cannot convert object to primitive value")
  end.

(** A template literal [`prefix${v}`]. *)
Definition template (prefix : string) (v : value) : M value :=
  text ← to_text v;
  mret (VStr (prefix +:+ text)).

(** *** Moderator actions *)

Definition distinguishThing (m : ApiModule) (id sticky : value) : M value :=
  uh ← getModhash m;
  post (VStr "/api/distinguish/yes")
       (VObj [("id", id); ("sticky", sticky); ("uh", uh)]) VUndefined.

Definition removeThing (m : ApiModule) (id spam : value) : M value :=
  let spam := param_default spam (VBool false) in
  uh ← getModhash m;
  post (VStr "/api/remove")
       (VObj [("uh", uh); ("id", id); ("spam", spam)]) VUndefined.

Definition lock (m : ApiModule) (id : value) : M Response :=
  uh ← getModhash m;
  apiOauthPOST (VStr "/api/lock") (VObj [("id", id); ("uh", uh)]) VUndefined.

(** *** Mod notes *)

(** [.then(response => response.json()).then(response => {
    TBStorage.purifyObject(response); ... })]: the decoded and sanitised
    body of a response. *)
Definition purified_json (response : Response) : M value :=
  response ← lift (Response_json response);
  TBStorage_purifyObject response.

Definition getModNotes (subreddit user before : value) : M value :=
  response ← apiOauthGET (VStr "/api/mod/notes")
    (VObj [("subreddit", subreddit); ("user", user); ("before", before);
           ("limit", VNum 100)]);
  response ← purified_json response;
  member response "mod_notes".

(** What the object [tally] holds under a key: it is created as [{}] and
    written by the callback only, which stores the number one, adds one to
    a number, or appends the character [1] to a text. *)
Inductive tally_entry : Type :=
  | Count (n : Z)
  | Text (s : string).

Definition entry_value (e : tally_entry) : value :=
  match e with Count n => VNum n | Text s => VStr s end.

Fixpoint tally_lookup (k : string) (tally : list (string * tally_entry))
  : option tally_entry :=
  match tally with
  | [] => None
  | (k', e) :: rest => if String.eqb k k' then Some e else tally_lookup k rest
  end.

Fixpoint tally_set (k : string) (e : tally_entry)
    (tally : list (string * tally_entry)) : list (string * tally_entry) :=
  match tally with
  | [] => [(k, e)]
  | (k', e') :: rest =>
      if String.eqb k k' then (k, e) :: rest else (k', e') :: tally_set k e rest
  end.

(** [if (tally[label]) { tally[label] += 1; } else { tally[label] = 1; }].
    An own entry that is truthy is incremented: a number by one, a text by
    the character [1]; a falsy one (zero, the empty text) restarts at one.
    A key that the object does not hold starts at one, unless
    [Object.prototype] has it: the inherited function is truthy and adding
    one to it gives its text followed by [1], and for [__proto__] the
    assignment is ignored. *)
Definition tally_add (tally : list (string * tally_entry)) (key : string)
  : list (string * tally_entry) :=
  if String.eqb key "__proto__" then tally
  else
    match tally_lookup key tally with
    | Some (Count n) =>
        if (n =? 0)%Z then tally_set key (Count 1) tally
        else tally_set key (Count (n + 1)) tally
    | Some (Text s) =>
        if String.eqb s "" then tally_set key (Count 1) tally
        else tally_set key (Text (s +:+ "1")) tally
    | None =>
        if bool_decide (key ∈ inherited_keys)
        then tally_set key (Text (native_source key +:+ "1")) tally
        else tally_set key (Count 1) tally
    end.

(** The sum of the counts that a tally holds. *)
Fixpoint tally_total (tally : list (string * tally_entry)) : Z :=
  match tally with
  | [] => 0
  | (_, Count n) :: rest => n + tally_total rest
  | (_, Text _) :: rest => tally_total rest
  end.

(** The callback of the [forEach]: the property key is the label converted
    to a string. *)
Definition tally_note (tally : list (string * tally_entry)) (note : value)
  : M (list (string * tally_entry)) :=
  user_note_data ← member note "user_note_data";
  label ← member user_note_data "label";
  key ← to_text label;
  mret (tally_add tally key).

(** The property key under which a note is tallied: its
    [user_note_data.label] converted to a string, when both reads and the
    conversion succeed. *)
Definition note_key (note : value) : option string :=
  match own_read note "user_note_data" with
  | Some user_note_data =>
      match own_read user_note_data "label" with
      | Some label => js_text label
      | None => None
      end
  | None => None
  end.

Fixpoint tally_notes (notes : list value) (tally : list (string * tally_entry))
  : M (list (string * tally_entry)) :=
  match notes with
  | [] => mret tally
  | note :: rest =>
      tally ← tally_note tally note;
      tally_notes rest tally
  end.

(** [mod_notes.forEach(...)]: only an array has the method. *)
Definition forEach_tally (mod_notes : value)
  : M (list (string * tally_entry)) :=
  match mod_notes with
  | VArr notes => tally_notes notes []
  | VUndefined | VNull =>
      throw (TypeError ("Cannot read properties of " +:+ to_string mod_notes))
  | _ => throw (TypeError "forEach is not a function")
  end.

(** The object that is returned, as a value: its properties as they are
    enumerated. *)
Definition tally_object (tally : list (string * tally_entry)) : value :=
  VObj (enumerate
          (map (fun ke => match ke with (k, e) => (k, entry_value e) end)
               tally)).

Definition getModNotesWithCounts (subreddit user : value) : M value :=
  response ← apiOauthGET (VStr "/api/mod/notes")
    (VObj [("subreddit", subreddit); ("user", user);
           ("filter", VStr "NOTE"); ("limit", VNum 100)]);
  response ← purified_json response;
  mod_notes ← member response "mod_notes";
  tally ← forEach_tally mod_notes;
  mret (tally_object tally).

(** [names.join(',')]: only an array has the method; its elements are
    converted to strings, [undefined] and [null] to the empty string. *)
Definition join_comma (names : value) : M value :=
  match names with
  | VArr _ =>
      text ← to_text names;
      mret (VStr text)
  | VUndefined | VNull =>
      throw (TypeError ("Cannot read properties of " +:+ to_string names))
  | _ => throw (TypeError "join is not a function")
  end.

(** [getRecentModNotes], [createModNote] and [deleteModNote] are not
    [async]: what fails before the request is posted is thrown to the
    caller rather than delivered through the promise. [M] has one kind of
    failure for both. *)
Definition getRecentModNotes (subreddits users : value) : M value :=
  subreddits ← join_comma subreddits;
  users ← join_comma users;
  response ← apiOauthGET (VStr "/api/mod/notes/recent")
    (VObj [("subreddits", subreddits); ("users", users)]);
  response ← purified_json response;
  member response "mod_notes".

Definition createModNote (data : value) : M Response :=
  subreddit ← member data "subreddit";
  user ← member data "user";
  note ← member data "note";
  label ← member data "label";
  redditID ← member data "redditID";
  apiOauthPOST (VStr "/api/mod/notes")
    (VObj [("subreddit", subreddit); ("user", user); ("note", note);
           ("label", label); ("reddit_id", redditID)]) VUndefined.

Definition deleteModNote (data : value) : M Response :=
  subreddit ← member data "subreddit";
  user ← member data "user";
  id ← member data "id";
  apiOauthDELETE (VStr "/api/mod/notes")
    (VObj [("subreddit", subreddit); ("user", user); ("note_id", id)]).

(** *** Posting a comment *)

(** [Object.prototype.hasOwnProperty.call(v, k)]: it throws on [undefined]
    and [null]; arrays and strings own their indices and [length]. *)
Definition has_own (v : value) (k : string) : M bool :=
  match v with
  | VUndefined | VNull =>
      throw (TypeError "Cannot convert undefined or null to object")
  | VObj props => mret (bool_decide (is_Some (Obj.lookup k props)))
  | VArr _ | VStr _ =>
      mret (String.eqb k "length"
            || bool_decide (is_Some (Obj.lookup k (Obj.own_props v))))
  | VBool _ | VNum _ => mret false
  end.

(** [v > 0]: [undefined] converts to NaN and [null] to zero, a boolean to
    zero or one, an array to the text of its elements; an object converts
    to NaN through the inherited [toString], which an own property of that
    name (never a function in this model) hides, making the conversion
    throw. *)
Definition gt_zero (v : value) : M bool :=
  match v with
  | VNum n => mret (0 <? n)%Z
  | VUndefined | VNull => mret false
  | VBool b => mret b
  | VStr s => mret (string_gt_zero s)
  | VArr _ =>
      text ← to_text v;
      mret (string_gt_zero text)
  | VObj props =>
      if bool_decide (is_Some (Obj.lookup "toString" props))
      then throw (TypeError "Cannot convert object to primitive value")
      else mret false
  end.

(** What a [throw] can carry and a [catch] can receive: an error object, or
    any value ([postComment] throws the array of errors that the API
    reports). *)
Definition Thrown : Type := Err + value.

(** Computations that also write to the log. [logger] is not defined in the
    module; its [log] is taken to record its argument and return. The log
    is the list of the arguments it was called with, oldest first. *)
Definition L (A : Type) : Type :=
  World * list Thrown -> Outcome Thrown A * (World * list Thrown).

#[local] Instance L_ret : MRet L := fun A a s => (Resolved a, s).
#[local] Instance L_bind : MBind L := fun A B f m s =>
  match m s with
  | (Resolved a, s') => f a s'
  | (Rejected x, s') => (Rejected x, s')
  end.

(** A computation of the module, run where the log is kept. *)
Definition run_M {A} (m : M A) : L A := fun s =>
  match m s.1 with
  | (Resolved a, w') => (Resolved a, (w', s.2))
  | (Rejected e, w') => (Rejected (inl e), (w', s.2))
  end.

Definition logger_log (x : Thrown) : L unit := fun s =>
  (Resolved tt, (s.1, s.2 ++ [x])).

Definition throw_any {A} (x : Thrown) : L A := fun s => (Rejected x, s).

Definition L_try_catch {A} (body : L A) (handler : Thrown -> L A) : L A :=
  fun s =>
    match body s with
    | (Resolved a, s') => (Resolved a, s')
    | (Rejected x, s') => handler x s'
    end.

(** The condition [hasOwnProperty.call(response.json, 'errors') &&
    response.json.errors.length > 0]. *)
Definition errors_reported (response : value) : M bool :=
  json ← member response "json";
  has_errors ← has_own json "errors";
  if (has_errors : bool) then
    json ← member response "json";
    errors ← member json "errors";
    length ← member errors "length";
    gt_zero length
  else mret false.

(** [response.json.fails] and [response.json.errors] *)
Definition response_json_field (response : value) (k : string) : M value :=
  json ← member response "json";
  member json k.

Definition postComment (m : ApiModule) (parent text : value) : L value :=
  L_try_catch
    (uh ← run_M (getModhash m);
     response ← run_M (post (VStr "/api/comment")
       (VObj [("parent", parent); ("uh", uh); ("text", text);
              ("api_type", VStr "json")]) VUndefined);
     reported ← run_M (errors_reported response);
     if (reported : bool) then
       line ← run_M (template "Failed to post comment to on " parent);
       _ ← logger_log (inr line);
       fails ← run_M (response_json_field response "fails");
       _ ← logger_log (inr fails);
       errors ← run_M (response_json_field response "errors");
       throw_any (inr errors)
     else
       line ← run_M (template "Successfully posted comment on " parent);
       _ ← logger_log (inr line);
       mret response)
    (fun error =>
       line ← run_M (template "Failed to post link to on " parent);
       _ ← logger_log (inr line);
       _ ← logger_log error;
       throw_any error).

End more.

(** ** The identity promise while it is pending *)

(** The computations above run an attempt in one piece. Here the process
    is followed event by event: the request of an attempt is posted, the
    promise stays pending until the transport answers, and callers may
    arrive at any time in between. *)

Section pending.
Context {host : Platform}.

#[local] Existing Instances M_ret M_bind.

















End pending.

(** ** A small host to run the model on *)

(** A response of the example host: its status and the text of its body
    ([None] is the null body). *)
Record ExResponse : Type := mkExResponse {
  ex_status : Z;
  ex_body : option string
}.

Definition ex_null_body_status (s : Z) : bool :=
  (s =? 204)%Z || (s =? 205)%Z || (s =? 304)%Z.

(** The constructor of the example host, after the Fetch standard for a
    string or absent body and a numeric or absent status: a status outside
    200..599 is a [RangeError], a body together with a null-body status is a
    [TypeError]. Any other shape of [init] is refused. *)
Definition ex_Response_new (args : list value) : JsError ExResponse + ExResponse :=
  let body :=
    match nth 0 args VUndefined with
    | VUndefined | VNull => None
    | v => Some (to_string v)
    end in
  let status :=
    match nth 1 args VUndefined with
    | VUndefined | VNull => Some 200
    | VObj init =>
        match Obj.get "status" init with
        | VUndefined => Some 200
        | VNum s => Some s
        | _ => None
        end
    | _ => None
    end in
  match status with
  | None => inl (TypeError "Failed to construct 'Response'")
  | Some s =>
      if negb ((200 <=? s)%Z && (s <=? 599)%Z) then
        inl (mkError "RangeError" "The status provided is outside the range [200, 599]" None)
      else if ex_null_body_status s && bool_decide (is_Some body) then
        inl (TypeError "Response with null body status cannot have body")
      else inr (mkExResponse s body)
  end.

(** The example host is parameterised by the JSON decoder behind
    [response.json()] and by the sanitiser. *)
Definition ex_Response_json (decode : string -> option value) (r : ExResponse)
  : JsError ExResponse + value :=
  match decode (default "" (ex_body r)) with
  | Some v => inr v
  | None => inl (mkError "SyntaxError" "Unexpected token" None)
  end.

Lemma ex_Response_new_status body init rest r s :
  ex_Response_new (body :: VObj init :: rest) = inr r ->
  Obj.lookup "status" init = Some (VNum s) ->
  (200 <= s <= 599)%Z ->
  ex_status r = s.
Proof.
  intros Hnew Hstatus _. unfold ex_Response_new in Hnew. cbn [nth] in Hnew.
  unfold Obj.get in Hnew. rewrite Hstatus in Hnew.
  repeat case_match; simplify_eq/=; reflexivity.
Qed.

Lemma ex_Response_new_text b rest r :
  ex_Response_new (VStr b :: rest) = inr r ->
  default "" (ex_body r) = b.
Proof.
  unfold ex_Response_new. cbn [nth]. intros Hnew.
  repeat case_match; simplify_eq; reflexivity.
Qed.

Definition example_platform (decode : string -> option value)
    (purify : value -> value) : Platform := {|
  Response := ExResponse;
  Response_new := ex_Response_new;
  Response_status := ex_status;
  Response_text := fun r => default "" (ex_body r);
  Response_json := ex_Response_json decode;
  purifyObject := purify;
  Response_new_status := ex_Response_new_status;
  Response_new_text := ex_Response_new_text
|}.

(** The decoded body of [/api/me.json] that the examples use. *)
Definition me_json : value :=
  VObj [("kind", VStr "t2");
        ("data", VObj [("name", VStr "alice"); ("modhash", VStr "k3y");
                       ("subreddit", VObj [("title", VStr "<b>alice</b>")])])].

(** Stands for [JSON.parse] on the one body text of the examples. *)
Definition example_decode (s : string) : option value :=
  if String.eqb s "me" then Some me_json else None.

(** A sanitiser that blanks every string that opens a tag. *)
Fixpoint example_purify (v : value) : value :=
  match v with
  | VStr s => VStr (if String.prefix "<" s then "" else s)
  | VArr elems => VArr (map example_purify elems)
  | VObj props =>
      VObj (map (fun kv => match kv with (k, x) => (k, example_purify x) end)
                props)
  | _ => v
  end.

Definition example : Platform := example_platform example_decode example_purify.

(** A world whose background answers the [n]-th message with the [n]-th
    entry of a script, and with a transport failure once the script is
    exhausted. *)
Definition scripted (replies : list (JsError ExResponse + value))
    (stored : gmap (string * string) value) : World (host := example) :=
  @mkWorld example
    (fun n _ =>
       nth n replies (inl (mkError "Error" "Could not establish connection" None)))
    [] stored.

(** The descriptor that [getJSON('/api/me.json')] passes to the relay. *)
Definition me_descriptor : list (string * value) :=
  [("okOnly", VBool true); ("method", VStr "GET");
   ("endpoint", VStr "/api/me.json"); ("query", VObj [])].

Definition timeout_envelope : list (string * value) :=
  [("error", VBool true); ("message", VStr "Gateway Timeout");
   ("response", VArr [VStr "busy"; VObj [("status", VNum 504)]])].

Definition offline_envelope : list (string * value) :=
  [("error", VBool true); ("message", VStr "Failed to fetch")].

Definition ok_envelope : list (string * value) :=
  [("response", VArr [VStr "me"; VObj [("status", VNum 200)]])].

(** The background answers 200 with the user's details. *)
Definition world_ok : World (host := example) :=
  scripted [inr (VObj ok_envelope)] ∅.

(** The background answers 504 once. *)
Definition world_timeout : World (host := example) :=
  scripted [inr (VObj timeout_envelope)] ∅.

(** The background answers 504 three times and would answer 200 to a fourth
    request. *)
Definition world_timeouts : World (host := example) :=
  scripted [inr (VObj timeout_envelope); inr (VObj timeout_envelope);
            inr (VObj timeout_envelope); inr (VObj ok_envelope)] ∅.

(** The request fails without a response; an earlier session left the
    user's details in the cache. *)
Definition world_offline : World (host := example) :=
  scripted [inr (VObj offline_envelope)]
           {[ ("Utils", "userDetails") := me_json ]}.

(** The background replies with an empty object. *)
Definition world_empty_reply : World (host := example) :=
  scripted [inr (VObj [])] ∅.

(** No background at all, and an empty cache. *)
Definition world_down : World (host := example) := scripted [] ∅.

(** The text of a built-in function on the example host: the function
    under [constructor] is [Object], every other one is named after its
    key. *)
Definition example_native_source (k : string) : string :=
  "function " +:+ (if String.eqb k "constructor" then "Object" else k)
  +:+ "() { [native code] }".

(** The text of a power of ten from [1e21] on; the examples convert no
    other number outside the safe integers. *)
Definition example_number_text (n : Z) : string :=
  "1e+" +:+ pretty (Z.of_nat (String.length (pretty n)) - 1)%Z.

(** The example host's conversion of a string to a number, compared with
    zero, for strings of decimal digits: some digit is not zero. *)
Fixpoint example_string_gt_zero (s : string) : bool :=
  match s with
  | EmptyString => false
  | String c rest =>
      negb (String.eqb (String c EmptyString) "0")
      || example_string_gt_zero rest
  end.

Definition example_note (label : string) : value :=
  VObj [("user_note_data", VObj [("note", VStr "seen"); ("label", VStr label)])].

(** A note whose label is any value. *)
Definition labelled_note (label : value) : value :=
  VObj [("user_note_data", VObj [("label", label)])].

(** Decoded bodies of the site: a page of notes, an accepted and a refused
    comment. *)
Definition notes_page : value :=
  VObj [("mod_notes",
         VArr [example_note "BAN"; example_note "SPAM_WATCH";
               example_note "BAN"])].

(** A page whose labels are, or convert to, array indices, and a page
    with a label that does not convert to a string. *)
Definition numbered_page : value :=
  VObj [("mod_notes",
         VArr [labelled_note (VStr "b"); labelled_note (VNum 2);
               labelled_note (VStr "1"); labelled_note (VStr "2");
               labelled_note (VStr "01");
               labelled_note (VNum (10 ^ 21))])].

Definition unlabelled_page : value :=
  VObj [("mod_notes",
         VArr [labelled_note (VStr "b");
               labelled_note (VObj [("toString", VNum 1)])])].

Definition comment_accepted : value :=
  VObj [("json", VObj [("errors", VArr []);
                       ("data", VObj [("things", VArr [])])])].

Definition comment_refused : value :=
  VObj [("json",
         VObj [("errors",
                VArr [VArr [VStr "TOO_LONG"; VStr "this is too long";
                            VStr "text"]])])].

(** Stands for [JSON.parse] on the body texts of these examples. *)
Definition site_decode (s : string) : option value :=
  if String.eqb s "me" then Some me_json
  else if String.eqb s "notes" then Some notes_page
  else if String.eqb s "numbered" then Some numbered_page
  else if String.eqb s "unlabelled" then Some unlabelled_page
  else if String.eqb s "accepted" then Some comment_accepted
  else if String.eqb s "refused" then Some comment_refused
  else None.

Definition site : Platform := example_platform site_decode example_purify.

(** A world of the site whose background answers the [n]-th message with
    status 200 and the [n]-th body text. *)
Definition site_world (bodies : list string) : World (host := site) :=
  @mkWorld site
    (fun n _ =>
       match bodies !! n with
       | Some body =>
           inr (VObj [("response",
                       VArr [VStr body; VObj [("status", VNum 200)]])])
       | None => inl (mkError "Error" "Could not establish connection" None)
       end)
    [] ∅.

(** The module after a load that fetched the user's details, and after a
    load that could fetch nothing. *)
Definition signed_in : ApiModule (host := site) :=
  (module_load (site_world ["me"])).1.

Definition signed_out : ApiModule (host := site) :=
  (module_load (site_world [])).1.

(** The first request gets a 504 and the second the user's details. *)
Definition world_retry : World (host := example) :=
  scripted [inr (VObj timeout_envelope); inr (VObj ok_envelope)] ∅.

(** * Properties *)

Section properties.
Context {host : Platform}.

#[local] Existing Instances M_ret M_bind.

(** ** Property lists *)

Lemma lookup_set k k' v props :
  Obj.lookup k (Obj.set k' v props)
  = if String.eqb k k' then Some v else Obj.lookup k props.
Proof.
  induction props as [|[k0 v0] rest IH]; cbn.
  - destruct (String.eqb_spec k k'); reflexivity.
  - destruct (String.eqb_spec k' k0) as [->|Hne]; cbn.
    + destruct (String.eqb_spec k k0); reflexivity.
    + destruct (String.eqb_spec k k0) as [->|Hne'].
      * destruct (String.eqb_spec k0 k'); [congruence|reflexivity].
      * exact IH.
Qed.

Lemma lookup_absent k (props : list (string * value)) :
  k ∉ props.*1 -> Obj.lookup k props = None.
Proof.
  induction props as [|[k0 v0] rest IH]; cbn; [reflexivity|].
  intros Hnotin. apply not_elem_of_cons in Hnotin as [Hne Hrest].
  destruct (String.eqb_spec k k0); [congruence|auto].
Qed.

(** A spread leaves alone every key that its source does not define. *)
Lemma lookup_spread_absent k entries base :
  Obj.lookup k entries = None ->
  Obj.lookup k (fold_left (fun acc kv => Obj.set kv.1 kv.2 acc) entries base)
  = Obj.lookup k base.
Proof.
  revert base. induction entries as [|[k0 v0] rest IH]; intros base; cbn;
    [reflexivity|].
  destruct (String.eqb_spec k k0) as [->|Hne]; [discriminate|].
  intros Hrest. rewrite (IH _ Hrest), lookup_set.
  destruct (String.eqb_spec k k0); [congruence|reflexivity].
Qed.

(** A spread gives every key that its source defines the source's value. *)
Lemma lookup_spread_present k v entries base :
  NoDup entries.*1 ->
  Obj.lookup k entries = Some v ->
  Obj.lookup k (fold_left (fun acc kv => Obj.set kv.1 kv.2 acc) entries base)
  = Some v.
Proof.
  revert base. induction entries as [|[k0 v0] rest IH]; intros base; cbn;
    [discriminate|].
  intros Hnodup. apply NoDup_cons in Hnodup as [Hnotin Hnodup].
  destruct (String.eqb_spec k k0) as [->|Hne].
  - intros [= ->].
    rewrite (lookup_spread_absent _ _ _ (lookup_absent _ _ Hnotin)), lookup_set.
    rewrite String.eqb_refl. reflexivity.
  - intros Hrest. apply IH; assumption.
Qed.

Lemma get_spread_absent k base options :
  Obj.lookup k (Obj.own_props options) = None ->
  Obj.get k (Obj.spread base options) = Obj.get k base.
Proof.
  intros Habsent. unfold Obj.get, Obj.spread.
  rewrite (lookup_spread_absent _ _ _ Habsent). reflexivity.
Qed.

Lemma get_spread_present k v base o :
  NoDup o.*1 ->
  Obj.lookup k o = Some v ->
  Obj.get k (Obj.spread base (VObj o)) = v.
Proof.
  intros Hnodup Hpresent. unfold Obj.get, Obj.spread. cbn [Obj.own_props].
  rewrite (lookup_spread_present _ _ _ _ Hnodup Hpresent). reflexivity.
Qed.

(** Unfolds the monad of the module down to functions on worlds. *)
Ltac run :=
  unfold mbind, M_bind, mret, M_ret, throw, lift, await, try_catch in *;
  cbn beta iota in *.

Lemma pure_ret {A} (a : A) : pure (mret a).
Proof. eexists. intros w. reflexivity. Qed.

Lemma pure_throw {A} (e : Err) : pure (throw (A := A) e).
Proof. eexists. intros w. reflexivity. Qed.

Lemma pure_lift {A} (r : Err + A) : pure (lift r).
Proof. destruct r; [apply pure_throw | apply pure_ret]. Qed.

Lemma pure_await {A} (p : Outcome Err A) : pure (await p).
Proof. exists p. intros w. reflexivity. Qed.

Lemma pure_member v p : pure (member v p).
Proof. destruct v; first [apply pure_throw | apply pure_ret]. Qed.

Lemma pure_spread_args v : pure (spread_args v).
Proof. destruct v; first [apply pure_throw | apply pure_ret]. Qed.

Lemma pure_bind {A B} (m : M A) (f : A -> M B) :
  pure m -> (forall a, pure (f a)) -> pure (m ≫= f).
Proof.
  intros [[a|e] Hm] Hf.
  - destruct (Hf a) as [outcome Hfa]. exists outcome. intros w.
    run. rewrite Hm. apply Hfa.
  - exists (Rejected e). intros w. run. rewrite Hm. reflexivity.
Qed.

Lemma pure_if {A} (b : bool) (m1 m2 : M A) :
  pure m1 -> pure m2 -> pure (if b then m1 else m2).
Proof. destruct b; auto. Qed.

Create HintDb pure.
#[local] Hint Resolve pure_ret pure_throw pure_lift pure_await pure_member
  pure_spread_args pure_if : pure.
#[local] Hint Extern 2 (pure (_ ≫= _)) =>
  apply pure_bind; [|intros ?] : pure.

(** Posting a message appends one event; a pure continuation adds none. *)
Lemma sendMessage_then_pure {A} message (k : value -> M A) w :
  (forall reply, pure (k reply)) ->
  exists outcome,
    (runtime_sendMessage message ≫= k) w
    = (outcome, record (EvSendMessage message) w).
Proof.
  intros Hk. unfold runtime_sendMessage. run.
  destruct (background w _ _) as [e|reply]; [eauto|].
  destruct (Hk reply) as [outcome Hrun]. exists outcome. apply Hrun.
Qed.

(** ** The relay *)

(** A descriptor that is an object is relayed as one message; what follows
    the reply leaves the world alone. *)
Lemma sendRequest_object props w :
  exists outcome,
    sendRequest (VObj props) w
    = (outcome, record (EvSendMessage (request_message props)) w).
Proof.
  unfold sendRequest. apply sendMessage_then_pure.
  intros reply. auto 10 with pure.
Qed.

(** C8. For every request descriptor (an object), one call of [sendRequest]
    posts exactly one transport message: the trace grows by the single
    event of sending [{action: 'tb-request', method, endpoint, query, body,
    oauth, okOnly}], in which each field is the descriptor's own field,
    unchanged; nothing else in the world changes, and the call settles to
    one outcome, a resolution or a rejection. *)
Theorem sendRequest_posts_one_message (props : list (string * value)) (w : World) :
  exists outcome w',
    sendRequest (VObj props) w = (outcome, w')
    /\ trace w' =
       trace w ++
       [EvSendMessage
          (VObj [("action", VStr "tb-request");
                 ("method", Obj.get "method" props);
                 ("endpoint", Obj.get "endpoint" props);
                 ("query", Obj.get "query" props);
                 ("body", Obj.get "body" props);
                 ("oauth", Obj.get "oauth" props);
                 ("okOnly", Obj.get "okOnly" props)])]
    /\ sent w' = sent w ++ [request_message props]
    /\ length (sent w') = S (length (sent w))
    /\ cache w' = cache w
    /\ ((exists r, outcome = Resolved r) \/ (exists e, outcome = Rejected e)).
Proof.
  destruct (sendRequest_object props w) as [outcome Hrun].
  exists outcome, (record (EvSendMessage (request_message props)) w).
  split; [exact Hrun|]. split; [reflexivity|].
  assert (Hsent : sent (record (EvSendMessage (request_message props)) w)
                  = sent w ++ [request_message props]).
  { unfold sent, record. cbn. rewrite omap_app. reflexivity. }
  split; [exact Hsent|]. split.
  { rewrite Hsent, length_app. cbn. lia. }
  split; [reflexivity|].
  destruct outcome; eauto.
Qed.

(** The three ways a reply object settles the call. *)
Lemma sendRequest_reply_error_bare props w env :
  background w (length (sent w)) (request_message props) = inr (VObj env) ->
  truthy (Obj.get "error" env) = true ->
  truthy (Obj.get "response" env) = false ->
  sendRequest (VObj props) w
  = (Rejected (Error_new (Obj.get "message" env)),
     record (EvSendMessage (request_message props)) w).
Proof.
  intros Hreply Herror Hresponse.
  unfold sendRequest, runtime_sendMessage. cbn [member]. run.
  fold (request_message props). rewrite Hreply. cbn [member]. run.
  rewrite Herror, Hresponse. reflexivity.
Qed.

Lemma sendRequest_reply_error_response props w env args :
  background w (length (sent w)) (request_message props) = inr (VObj env) ->
  truthy (Obj.get "error" env) = true ->
  Obj.get "response" env = VArr args ->
  sendRequest (VObj props) w
  = (match Response_new args with
     | inr r => Rejected (with_response (Error_new (Obj.get "message" env)) r)
     | inl thrown => Rejected thrown
     end,
     record (EvSendMessage (request_message props)) w).
Proof.
  intros Hreply Herror Hresponse.
  unfold sendRequest, runtime_sendMessage. cbn [member]. run.
  fold (request_message props). rewrite Hreply. cbn [member]. run.
  rewrite Herror, Hresponse. cbn [truthy spread_args]. run.
  destruct (Response_new args); reflexivity.
Qed.

Lemma sendRequest_reply_success props w env :
  background w (length (sent w)) (request_message props) = inr (VObj env) ->
  truthy (Obj.get "error" env) = false ->
  sendRequest (VObj props) w
  = (r ← (args ← spread_args (Obj.get "response" env);
          lift (Response_new args)); mret r)
      (record (EvSendMessage (request_message props)) w).
Proof.
  intros Hreply Herror.
  unfold sendRequest, runtime_sendMessage. cbn [member]. run.
  fold (request_message props). rewrite Hreply. cbn [member]. run.
  rewrite Herror.
  destruct (spread_args _ _) as [[args|e] w'] eqn:Hspread; [|reflexivity].
  destruct (Response_new args); reflexivity.
Qed.

(** C1. When the reply envelope has a truthy [error], a string [message]
    and, if it has a [response] field at all, an array from which a
    [Response] can be constructed, [sendRequest] rejects with an [Error]
    whose message is the envelope's [message]; the error has a [response]
    attribute exactly when the envelope has a [response] field, and the
    attribute is then the [Response] constructed from the elements of that
    array. *)
Theorem sendRequest_error_envelope
    (props : list (string * value)) (w : World)
    (env : list (string * value)) (message : string) :
  background w (length (sent w)) (request_message props) = inr (VObj env) ->
  truthy (Obj.get "error" env) = true ->
  Obj.lookup "message" env = Some (VStr message) ->
  (forall v, Obj.lookup "response" env = Some v ->
     exists args r, v = VArr args /\ Response_new args = inr r) ->
  exists e,
    sendRequest (VObj props) w
    = (Rejected e, record (EvSendMessage (request_message props)) w)
    /\ err_name e = "Error"
    /\ err_message e = message
    /\ (is_Some (err_response e) <-> is_Some (Obj.lookup "response" env))
    /\ (forall args, Obj.lookup "response" env = Some (VArr args) ->
          exists r, Response_new args = inr r /\ err_response e = Some r)
    /\ (Obj.lookup "response" env = None -> err_response e = None).
Proof.
  intros Hreply Herror Hmessage Hwf.
  assert (Hmsg : Obj.get "message" env = VStr message)
    by (unfold Obj.get; rewrite Hmessage; reflexivity).
  destruct (Obj.lookup "response" env) as [v|] eqn:Hlookup.
  - destruct (Hwf v eq_refl) as (args & r & -> & Hnew).
    assert (Hget : Obj.get "response" env = VArr args)
      by (unfold Obj.get; rewrite Hlookup; reflexivity).
    rewrite (sendRequest_reply_error_response props w env args Hreply Herror Hget).
    rewrite Hnew, Hmsg. eexists. split; [reflexivity|]. cbn.
    repeat split; eauto.
    + intros args' [= <-]. eauto.
    + discriminate.
  - assert (Hget : truthy (Obj.get "response" env) = false)
      by (unfold Obj.get; rewrite Hlookup; reflexivity).
    rewrite (sendRequest_reply_error_bare props w env Hreply Herror Hget).
    rewrite Hmsg. eexists. split; [reflexivity|]. cbn.
    repeat split; try discriminate; intros [? ?]; discriminate.
Qed.

(** C2. When the reply envelope has a falsy [error] and carries a response
    tuple from which a [Response] can be constructed, [sendRequest]
    resolves to the [Response] constructed from exactly the elements of
    that tuple; its status is the status given in the tuple and its body
    text is the body given in the tuple. *)
Theorem sendRequest_success_envelope
    (props : list (string * value)) (w : World)
    (env : list (string * value)) (args : list value) (r : Response) :
  background w (length (sent w)) (request_message props) = inr (VObj env) ->
  truthy (Obj.get "error" env) = false ->
  Obj.lookup "response" env = Some (VArr args) ->
  Response_new args = inr r ->
  sendRequest (VObj props) w
  = (Resolved r, record (EvSendMessage (request_message props)) w)
  /\ (forall body init rest s,
        args = body :: VObj init :: rest ->
        Obj.lookup "status" init = Some (VNum s) ->
        (200 <= s <= 599)%Z ->
        Response_status r = s)
  /\ (forall b rest, args = VStr b :: rest -> Response_text r = b).
Proof.
  intros Hreply Herror Hlookup Hnew. split; [|split].
  - rewrite (sendRequest_reply_success props w env Hreply Herror).
    unfold Obj.get. rewrite Hlookup. cbn [default from_option id spread_args].
    run. rewrite Hnew. reflexivity.
  - intros body init rest s -> Hstatus Hrange.
    exact (Response_new_status body init rest r s Hnew Hstatus Hrange).
  - intros b rest ->. exact (Response_new_text b rest r Hnew).
Qed.

(** C10. When the reply envelope has a falsy [error] and no [response]
    field, [sendRequest] does not resolve: spreading the absent tuple
    throws, and the call rejects with a [TypeError] that carries no
    [response] attribute. Hence a call that resolves on a falsy [error]
    had a [response] field in its reply. *)
Theorem sendRequest_success_without_response
    (props : list (string * value)) (w : World)
    (env : list (string * value)) :
  background w (length (sent w)) (request_message props) = inr (VObj env) ->
  truthy (Obj.get "error" env) = false ->
  (Obj.lookup "response" env = None ->
     exists e,
       sendRequest (VObj props) w
       = (Rejected e, record (EvSendMessage (request_message props)) w)
       /\ err_name e = "TypeError"
       /\ err_response e = None)
  /\ (forall r w',
        sendRequest (VObj props) w = (Resolved r, w') ->
        is_Some (Obj.lookup "response" env)).
Proof.
  intros Hreply Herror.
  assert (Habsent : Obj.lookup "response" env = None ->
     exists e,
       sendRequest (VObj props) w
       = (Rejected e, record (EvSendMessage (request_message props)) w)
       /\ err_name e = "TypeError"
       /\ err_response e = None).
  { intros Hlookup.
    rewrite (sendRequest_reply_success props w env Hreply Herror).
    unfold Obj.get. rewrite Hlookup. cbn. run.
    eexists. split; [reflexivity|]. split; reflexivity. }
  split; [exact Habsent|].
  intros r w' Hrun.
  destruct (Obj.lookup "response" env) eqn:Hlookup; [eauto|].
  destruct (Habsent eq_refl) as (e & Hrej & _). congruence.
Qed.

(** ** The derived wrappers *)

Lemma own_props_default options :
  Obj.own_props (param_default options (VObj [])) = Obj.own_props options.
Proof. destruct options; reflexivity. Qed.

(** C6 (amended). The contract table gives the defaults of the wrappers.
    [apiOauthGET] and [apiOauthDELETE] take no options and always build the
    table's descriptor. [getJSON], [post] and [apiOauthPOST] spread their
    [options] argument last: for every endpoint, query and body, a key of
    the table that [options] does not define has the table's value
    ([okOnly] true for all three, [oauth] true for [apiOauthPOST] only, the
    method of the row), and a key that [options] defines has the value
    [options] gives it. [getJSON] and [post] decode the body of the
    response as JSON, the OAuth wrappers return the response itself. *)
Theorem wrapper_descriptor_table (endpoint query body options : value) :
  let own k := Obj.lookup k (Obj.own_props options) in
  (field "method" (apiOauthGET_options endpoint query) = VStr "GET"
   /\ field "oauth" (apiOauthGET_options endpoint query) = VBool true
   /\ field "okOnly" (apiOauthGET_options endpoint query) = VBool true
   /\ field "endpoint" (apiOauthGET_options endpoint query) = endpoint
   /\ field "query" (apiOauthGET_options endpoint query) = query)
  /\ (field "method" (apiOauthDELETE_options endpoint query) = VStr "DELETE"
      /\ field "oauth" (apiOauthDELETE_options endpoint query) = VBool true
      /\ field "okOnly" (apiOauthDELETE_options endpoint query) = VBool true
      /\ field "endpoint" (apiOauthDELETE_options endpoint query) = endpoint
      /\ field "query" (apiOauthDELETE_options endpoint query) = query)
  /\ (own "okOnly" = None ->
        field "okOnly" (getJSON_options endpoint query options) = VBool true
        /\ field "okOnly" (post_options endpoint body options) = VBool true
        /\ field "okOnly" (apiOauthPOST_options endpoint body options) = VBool true)
  /\ (own "method" = None ->
        field "method" (getJSON_options endpoint query options) = VStr "GET"
        /\ field "method" (post_options endpoint body options) = VStr "POST"
        /\ field "method" (apiOauthPOST_options endpoint body options) = VStr "POST")
  /\ (own "oauth" = None ->
        field "oauth" (getJSON_options endpoint query options) = VUndefined
        /\ field "oauth" (post_options endpoint body options) = VUndefined
        /\ field "oauth" (apiOauthPOST_options endpoint body options) = VBool true)
  /\ (forall o k v,
        options = VObj o -> NoDup o.*1 -> Obj.lookup k o = Some v ->
        field k (getJSON_options endpoint query options) = v
        /\ field k (post_options endpoint body options) = v
        /\ field k (apiOauthPOST_options endpoint body options) = v)
  /\ getJSON endpoint query options
      = (sendRequest (getJSON_options endpoint query options)
           ≫= fun response => lift (Response_json response))
  /\ post endpoint body options
      = (sendRequest (post_options endpoint body options)
           ≫= fun response => lift (Response_json response))
  /\ apiOauthPOST endpoint body options
      = sendRequest (apiOauthPOST_options endpoint body options)
  /\ apiOauthGET endpoint query
      = sendRequest (apiOauthGET_options endpoint query)
  /\ apiOauthDELETE endpoint query
      = sendRequest (apiOauthDELETE_options endpoint query).
Proof.
  intros own.
  assert (Habsent : forall k base, own k = None ->
    Obj.get k (Obj.spread base (param_default options (VObj []))) = Obj.get k base).
  { intros k base Hown. apply get_spread_absent.
    rewrite own_props_default. exact Hown. }
  split; [repeat split|]. split; [repeat split|].
  unfold getJSON_options, post_options, apiOauthPOST_options. cbn [field].
  split; [|split; [|split; [|split]]].
  - intros Hown. rewrite !(Habsent _ _ Hown). repeat split.
  - intros Hown. rewrite !(Habsent _ _ Hown). repeat split.
  - intros Hown. rewrite !(Habsent _ _ Hown). repeat split.
  - intros o k v -> Hnodup Hlookup. cbn [param_default].
    rewrite !(get_spread_present k v _ o Hnodup Hlookup). repeat split.
  - repeat split.
Qed.

(** ** The user identity cache *)

Lemma getJSON_me w :
  exists outcome,
    getJSON (VStr "/api/me.json") VUndefined VUndefined w
    = (outcome, record (EvSendMessage me_request) w).
Proof.
  unfold getJSON, getJSON_options. cbn [param_default Obj.spread Obj.own_props fold_left].
  destruct (sendRequest_object
              [("okOnly", VBool true); ("method", VStr "GET");
               ("endpoint", VStr "/api/me.json"); ("query", VObj [])] w)
    as [outcome Hrun].
  change (request_message _) with me_request in Hrun.
  run. rewrite Hrun. destruct outcome as [response|e]; [|eauto].
  destruct (Response_json response); eauto.
Qed.

(** One attempt: either the request resolves and the attempt stores the
    sanitised data, or the request rejects and so does the attempt, having
    done nothing but post its message. *)
Lemma fetchUserDetails_try_run w :
  (exists data,
     getJSON (VStr "/api/me.json") VUndefined VUndefined w
     = (Resolved data, record (EvSendMessage me_request) w)
     /\ fetchUserDetails_try w = (Resolved (purifyObject data), stored_world data w))
  \/ (exists e,
     getJSON (VStr "/api/me.json") VUndefined VUndefined w
     = (Rejected e, record (EvSendMessage me_request) w)
     /\ fetchUserDetails_try w = (Rejected e, record (EvSendMessage me_request) w)).
Proof.
  destruct (getJSON_me w) as [[data|e] Hrun]; [left; exists data|right; exists e];
    (split; [exact Hrun|]);
    unfold fetchUserDetails_try, TBStorage_purifyObject, TBStorage_setCache;
    run; rewrite Hrun; [|reflexivity].
  unfold stored_world, record. cbn. rewrite <- !app_assoc. reflexivity.
Qed.

Lemma sent_record_send message w :
  sent (record (EvSendMessage message) w) = sent w ++ [message].
Proof. unfold sent, record. cbn. rewrite omap_app. reflexivity. Qed.

Lemma sent_stored_world data w :
  sent (stored_world data w) = sent w ++ [me_request].
Proof. unfold sent, stored_world. cbn. rewrite omap_app. reflexivity. Qed.

Lemma fetchUserDetails_try_sent w :
  sent (fetchUserDetails_try w).2 = sent w ++ [me_request].
Proof.
  destruct (fetchUserDetails_try_run w) as [(data & _ & ->)|(e & _ & ->)]; cbn.
  - apply sent_stored_world.
  - apply sent_record_send.
Qed.

(** A failed attempt leaves the cache as it was. *)
Lemma fetchUserDetails_try_rejected w e w1 :
  fetchUserDetails_try w = (Rejected e, w1) ->
  w1 = record (EvSendMessage me_request) w.
Proof.
  destruct (fetchUserDetails_try_run w) as [(data & _ & ->)|(e' & _ & ->)];
    congruence.
Qed.

Lemma gateway_timeout_spec (e : Err) :
  gateway_timeout e = true
  <-> exists r, err_response e = Some r /\ Response_status r = 504%Z.
Proof.
  unfold gateway_timeout. destruct (err_response e) as [r|].
  - rewrite Z.eqb_eq. split; [eauto|]. intros (r' & [= <-] & Hs). exact Hs.
  - split; [discriminate|]. intros (r & Hr & _). discriminate.
Qed.

Lemma fetchUserDetails_S tries w :
  fetchUserDetails (S tries) w
  = match fetchUserDetails_try w with
    | (Resolved data, w1) => (Resolved data, w1)
    | (Rejected e, w1) =>
        if gateway_timeout e && (1 <? S tries)%nat
        then fetchUserDetails tries w1
        else (Rejected e, w1)
    end.
Proof.
  cbn [fetchUserDetails]. unfold try_catch.
  destruct (fetchUserDetails_try w) as [[data|e] w1]; [reflexivity|].
  destruct (gateway_timeout e && (1 <? S tries)%nat); reflexivity.
Qed.

(** With one attempt left the sequence is that attempt. *)
Lemma fetchUserDetails_last w :
  fetchUserDetails 1 w = fetchUserDetails_try w.
Proof.
  rewrite fetchUserDetails_S.
  destruct (fetchUserDetails_try w) as [[data|e] w1]; [reflexivity|].
  rewrite andb_false_r. reflexivity.
Qed.

(** The four ways a fetch sequence with the default budget can go. *)
Lemma fetchUserDetails_cases w :
  (exists data w1,
     fetchUserDetails_try w = (Resolved data, w1)
     /\ fetchUserDetails 3 w = (Resolved data, w1))
  \/ (exists e w1,
     fetchUserDetails_try w = (Rejected e, w1) /\ gateway_timeout e = false
     /\ fetchUserDetails 3 w = (Rejected e, w1))
  \/ (exists e w1 outcome w2,
     fetchUserDetails_try w = (Rejected e, w1) /\ gateway_timeout e = true
     /\ fetchUserDetails_try w1 = (outcome, w2)
     /\ (forall e', outcome = Rejected e' -> gateway_timeout e' = false)
     /\ fetchUserDetails 3 w = (outcome, w2))
  \/ (exists e w1 e' w2,
     fetchUserDetails_try w = (Rejected e, w1) /\ gateway_timeout e = true
     /\ fetchUserDetails_try w1 = (Rejected e', w2) /\ gateway_timeout e' = true
     /\ fetchUserDetails 3 w = fetchUserDetails_try w2).
Proof.
  rewrite (fetchUserDetails_S 2 w).
  destruct (fetchUserDetails_try w) as [[data|e] w1] eqn:Hfirst;
    [left; eauto|right].
  destruct (gateway_timeout e) eqn:Hgt; [right|left; eauto 10].
  cbn [andb Nat.ltb Nat.leb]. rewrite (fetchUserDetails_S 1 w1).
  destruct (fetchUserDetails_try w1) as [[data|e'] w2] eqn:Hsecond.
  { left. exists e, w1, (Resolved data), w2. repeat split; auto. discriminate. }
  destruct (gateway_timeout e') eqn:Hgt'; cbn [andb Nat.ltb Nat.leb].
  - right. exists e, w1, e', w2. rewrite fetchUserDetails_last. auto.
  - left. exists e, w1, (Rejected e'), w2. repeat split; auto.
    intros ? [= <-]. exact Hgt'.
Qed.

Lemma attempt_world_0 w : attempt_world 0 w = w.
Proof. reflexivity. Qed.

Lemma attempt_world_S k w :
  attempt_world (S k) w = (fetchUserDetails_try (attempt_world k w)).2.
Proof. reflexivity. Qed.

(** A fetch sequence posts its request one to three times and nothing
    else. *)
Lemma fetchUserDetails_sent w :
  exists n : nat,
    (1 <= n <= 3)%nat
    /\ sent (fetchUserDetails 3 w).2 = sent w ++ replicate n me_request.
Proof.
  destruct (fetchUserDetails_cases w)
    as [(data & w1 & H1 & ->)
       |[(e1 & w1 & H1 & _ & ->)
        |[(e1 & w1 & o2 & w2 & H1 & _ & H2 & _ & ->)
         |(e1 & w1 & e2 & w2 & H1 & _ & H2 & _ & ->)]]].
  - exists 1%nat. split; [lia|]. rewrite <- H1. apply fetchUserDetails_try_sent.
  - exists 1%nat. split; [lia|]. rewrite <- H1. apply fetchUserDetails_try_sent.
  - exists 2%nat. split; [lia|].
    rewrite <- H2, fetchUserDetails_try_sent.
    replace w1 with (fetchUserDetails_try w).2 by (rewrite H1; reflexivity).
    rewrite fetchUserDetails_try_sent, <- app_assoc. reflexivity.
  - exists 3%nat. split; [lia|]. rewrite fetchUserDetails_try_sent.
    replace w2 with (fetchUserDetails_try w1).2 by (rewrite H2; reflexivity).
    rewrite fetchUserDetails_try_sent.
    replace w1 with (fetchUserDetails_try w).2 by (rewrite H1; reflexivity).
    rewrite fetchUserDetails_try_sent, <- !app_assoc. reflexivity.
Qed.

(** A fetch sequence that resolves does so with the sanitised data of its
    last attempt, stored as that attempt's last effect. *)
Lemma fetchUserDetails_resolved w clean w' :
  fetchUserDetails 3 w = (Resolved clean, w') ->
  exists k data,
    (k < 3)%nat
    /\ clean = purifyObject data
    /\ w' = stored_world data (attempt_world k w).
Proof.
  assert (Hlast : forall w0 clean0 w0',
    fetchUserDetails_try w0 = (Resolved clean0, w0') ->
    exists data, clean0 = purifyObject data /\ w0' = stored_world data w0).
  { intros w0 clean0 w0' Htry.
    destruct (fetchUserDetails_try_run w0)
      as [(data & _ & Hrun)|(e & _ & Hrun)]; rewrite Hrun in Htry;
      [|discriminate].
    injection Htry as <- <-. eauto. }
  destruct (fetchUserDetails_cases w)
    as [(data & w1 & H1 & ->)
       |[(e1 & w1 & H1 & _ & ->)
        |[(e1 & w1 & o2 & w2 & H1 & _ & H2 & _ & ->)
         |(e1 & w1 & e2 & w2 & H1 & _ & H2 & _ & ->)]]].
  - intros [= -> ->]. destruct (Hlast _ _ _ H1) as (d & -> & ->).
    exists 0%nat, d. repeat split; [lia].
  - discriminate.
  - intros [= -> ->]. destruct (Hlast _ _ _ H2) as (d & -> & ->).
    exists 1%nat, d. split; [lia|]. split; [reflexivity|].
    rewrite attempt_world_S, attempt_world_0, H1. reflexivity.
  - intros Htry. destruct (Hlast _ _ _ Htry) as (d & -> & ->).
    exists 2%nat, d. split; [lia|]. split; [reflexivity|].
    rewrite !attempt_world_S, attempt_world_0, H1. cbn [snd].
    rewrite H2. reflexivity.
Qed.

(** C3. A fetch sequence makes [n] attempts, one to three, and settles as
    its last attempt does. When attempt [k + 1] fails, a further attempt is
    made if and only if the caught error carries a [response] attribute
    whose status is 504 and fewer than three attempts have been made. Given
    three consecutive 504 failures exactly three attempts are made and the
    third failure propagates; an error that is not a 504, or that has no
    [response] attribute, propagates from the first attempt without a
    retry. *)
Theorem fetchUserDetails_retry_policy (w : World) :
  exists n : nat,
    (1 <= n <= 3)%nat
    /\ fetchUserDetails 3 w = fetchUserDetails_try (attempt_world (n - 1) w)
    /\ sent (fetchUserDetails 3 w).2 = sent w ++ replicate n me_request
    /\ (forall k e,
          (k < n)%nat ->
          (fetchUserDetails_try (attempt_world k w)).1 = Rejected e ->
          ((k + 1 < n)%nat
           <-> (exists r, err_response e = Some r /\ Response_status r = 504%Z)
               /\ (k + 1 < 3)%nat))
    /\ ((forall k, (k < 3)%nat ->
           exists e r,
             (fetchUserDetails_try (attempt_world k w)).1 = Rejected e
             /\ err_response e = Some r /\ Response_status r = 504%Z) ->
        n = 3%nat
        /\ exists e, fetchUserDetails 3 w = (Rejected e, attempt_world 3 w))
    /\ (forall e,
          (fetchUserDetails_try w).1 = Rejected e ->
          ~ (exists r, err_response e = Some r /\ Response_status r = 504%Z) ->
          n = 1%nat
          /\ fetchUserDetails 3 w = (Rejected e, attempt_world 1 w)).
Proof.
  destruct (fetchUserDetails_cases w)
    as [(data & w1 & H1 & Hrun)
       |[(e1 & w1 & H1 & Hgt1 & Hrun)
        |[(e1 & w1 & o2 & w2 & H1 & Hgt1 & H2 & Hgt2 & Hrun)
         |(e1 & w1 & e2 & w2 & H1 & Hgt1 & H2 & Hgt2 & Hrun)]]].
  - exists 1%nat. split; [lia|]. change (1 - 1)%nat with 0%nat.
    rewrite attempt_world_0. split; [congruence|]. split.
    { rewrite Hrun, <- H1. apply fetchUserDetails_try_sent. }
    split; [|split].
    + intros k e Hk. assert (k = 0)%nat as -> by lia.
      rewrite attempt_world_0, H1. discriminate.
    + intros Hall. destruct (Hall 0%nat ltac:(lia)) as (e & r & He & _).
      rewrite attempt_world_0, H1 in He. discriminate.
    + rewrite H1. discriminate.
  - exists 1%nat. split; [lia|]. change (1 - 1)%nat with 0%nat.
    rewrite attempt_world_0. split; [congruence|]. split.
    { rewrite Hrun, <- H1. apply fetchUserDetails_try_sent. }
    split; [|split].
    + intros k e Hk. assert (k = 0)%nat as -> by lia.
      rewrite attempt_world_0, H1. intros [= <-].
      rewrite <- gateway_timeout_spec, Hgt1. split; [lia|].
      intros [? _]. discriminate.
    + intros Hall. destruct (Hall 0%nat ltac:(lia)) as (e & r & He & Hr).
      rewrite attempt_world_0, H1 in He. injection He as <-.
      assert (gateway_timeout e1 = true) by (apply gateway_timeout_spec; eauto).
      congruence.
    + rewrite attempt_world_S, attempt_world_0, H1. intros e [= <-] _.
      split; [reflexivity|exact Hrun].
  - exists 2%nat. split; [lia|]. change (2 - 1)%nat with 1%nat.
    assert (Hw1 : attempt_world 1 w = w1)
      by (rewrite attempt_world_S, attempt_world_0, H1; reflexivity).
    rewrite Hw1. split; [congruence|]. split.
    { rewrite Hrun, <- H2, fetchUserDetails_try_sent, <- Hw1.
      rewrite attempt_world_S, attempt_world_0, fetchUserDetails_try_sent.
      rewrite <- app_assoc. reflexivity. }
    split; [|split].
    + intros k e Hk. assert (k = 0 \/ k = 1)%nat as [->| ->] by lia.
      * rewrite attempt_world_0, H1. intros [= <-].
        rewrite <- gateway_timeout_spec, Hgt1.
        split; [split; [reflexivity|lia]|lia].
      * rewrite Hw1, H2. intros He. cbn [fst] in He.
        rewrite <- gateway_timeout_spec, (Hgt2 e He). split; [lia|].
        intros [? _]. discriminate.
    + intros Hall. destruct (Hall 1%nat ltac:(lia)) as (e & r & He & Hr).
      rewrite Hw1, H2 in He. cbn [fst] in He.
      assert (gateway_timeout e = true) by (apply gateway_timeout_spec; eauto).
      rewrite (Hgt2 e He) in *. discriminate.
    + rewrite H1. intros e [= <-] Hnot.
      apply gateway_timeout_spec in Hgt1. contradiction.
  - exists 3%nat. split; [lia|]. change (3 - 1)%nat with 2%nat.
    assert (Hw1 : attempt_world 1 w = w1)
      by (rewrite attempt_world_S, attempt_world_0, H1; reflexivity).
    assert (Hw2 : attempt_world 2 w = w2)
      by (rewrite attempt_world_S, Hw1, H2; reflexivity).
    assert (Hw3 : attempt_world 3 w = (fetchUserDetails_try w2).2)
      by (rewrite attempt_world_S, Hw2; reflexivity).
    rewrite Hw2. split; [exact Hrun|]. split.
    { rewrite Hrun, fetchUserDetails_try_sent, <- Hw2.
      rewrite attempt_world_S, fetchUserDetails_try_sent.
      rewrite attempt_world_S, fetchUserDetails_try_sent, attempt_world_0.
      rewrite <- !app_assoc. reflexivity. }
    split; [|split].
    + intros k e Hk. assert (k = 0 \/ k = 1 \/ k = 2)%nat as [->|[->| ->]] by lia.
      * rewrite attempt_world_0, H1. intros [= <-].
        rewrite <- gateway_timeout_spec, Hgt1.
        split; [split; [reflexivity|lia]|lia].
      * rewrite Hw1, H2. intros [= <-].
        rewrite <- gateway_timeout_spec, Hgt2.
        split; [split; [reflexivity|lia]|lia].
      * intros _. split; [lia|]. intros [_ ?]. lia.
    + intros Hall. split; [reflexivity|].
      destruct (Hall 2%nat ltac:(lia)) as (e & r & He & _).
      rewrite Hw2 in He. exists e. rewrite Hrun, Hw3.
      destruct (fetchUserDetails_try w2) as [o3 w3]. cbn [fst snd] in He |- *.
      congruence.
    + rewrite H1. intros e [= <-] Hnot.
      apply gateway_timeout_spec in Hgt1. contradiction.
Qed.

(** The callers of the identity cache only await the promise of the module
    and read the value it delivers. *)
Lemma pure_call m c : pure (call m c).
Proof.
  destruct c; unfold call, getModhash, getCurrentUser; auto 10 with pure.
Qed.

Lemma run_calls_pure m calls w :
  run_calls m calls w = (map (fun c => (call m c w).1) calls, w).
Proof.
  induction calls as [|c rest IH]; cbn [run_calls map]; [reflexivity|].
  destruct (pure_call m c) as [outcome Hcall]. rewrite !Hcall, IH.
  reflexivity.
Qed.

(** A failed fetch sequence leaves the cache as it was. *)
Lemma fetchUserDetails_rejected_cache tries w e w1 :
  fetchUserDetails tries w = (Rejected e, w1) -> cache w1 = cache w.
Proof.
  revert w. induction tries as [|tries IH]; intros w.
  - cbn [fetchUserDetails]. unfold try_catch.
    destruct (fetchUserDetails_try w) as [[data|e0] w0] eqn:Htry;
      [discriminate|].
    apply fetchUserDetails_try_rejected in Htry as ->.
    destruct (_ && _); intros [= _ <-]; reflexivity.
  - rewrite fetchUserDetails_S.
    destruct (fetchUserDetails_try w) as [[data|e0] w0] eqn:Htry;
      [discriminate|].
    apply fetchUserDetails_try_rejected in Htry as ->.
    destruct (_ && _).
    + intros Hrest. rewrite (IH _ Hrest). reflexivity.
    + intros [= _ <-]. reflexivity.
Qed.

(** C4. If the whole fetch sequence fails, with whatever error, the identity
    promise does not reject: it resolves with the value read from the
    durable cache under namespace [Utils] and key [userDetails], which is
    the value stored there before the sequence started and is [undefined]
    if nothing was stored; every later call of [getUserDetails] receives
    that value. *)
Theorem userDetailsPromise_falls_back (w : World) (e : Err) (w1 : World) :
  fetchUserDetails 3 w = (Rejected e, w1) ->
  let stored := default VUndefined (cache w !! ("Utils", "userDetails")) in
  exists m,
    module_load w = (m, record (EvGetCache "Utils" "userDetails") w1)
    /\ userDetailsPromise m = Resolved stored
    /\ cache w1 = cache w
    /\ (cache w !! ("Utils", "userDetails") = None ->
        userDetailsPromise m = Resolved VUndefined)
    /\ (forall calls w' i,
          calls !! i = Some CallGetUserDetails ->
          (run_calls m calls w').1 !! i = Some (Resolved stored)).
Proof.
  intros Hrun stored.
  pose proof (fetchUserDetails_rejected_cache _ _ _ _ Hrun) as Hcache.
  exists (mkModule (Resolved stored)).
  split; [|split; [reflexivity|split; [exact Hcache|split]]].
  - unfold module_load, userDetailsPromise_init, try_catch. rewrite Hrun.
    unfold TBStorage_getCache. rewrite Hcache. reflexivity.
  - intros Hnone. unfold stored. rewrite Hnone. reflexivity.
  - intros calls w' i Hcall. rewrite run_calls_pure. cbn [fst].
    rewrite list_lookup_fmap, Hcall. reflexivity.
Qed.

(** C5. When the first [getJSON] of [/api/me.json] succeeds, the fetch
    sequence makes exactly one attempt: it posts that one request,
    sanitises the returned data, writes the sanitised data to the durable
    cache under [(Utils, userDetails)], in this order and with no other
    effect, and the identity promise resolves with the sanitised data. *)
Theorem fetchUserDetails_first_success (w : World) (data : value) (w1 : World) :
  getJSON (VStr "/api/me.json") VUndefined VUndefined w = (Resolved data, w1) ->
  let clean := purifyObject data in
  let w2 :=
    mkWorld (background w)
            (trace w ++ [EvSendMessage me_request; EvPurifyObject data;
                         EvSetCache "Utils" "userDetails" clean])
            (<[("Utils", "userDetails") := clean]> (cache w)) in
  fetchUserDetails 3 w = (Resolved clean, w2)
  /\ sent w2 = sent w ++ [me_request]
  /\ cache w2 !! ("Utils", "userDetails") = Some clean
  /\ module_load w = (mkModule (Resolved clean), w2).
Proof.
  intros Hjson clean w2.
  assert (Htry : fetchUserDetails_try w = (Resolved clean, w2)).
  { destruct (fetchUserDetails_try_run w)
      as [(data' & Hjson' & Htry)|(e & Hjson' & _)]; [|congruence].
    rewrite Hjson in Hjson'. injection Hjson' as -> _. exact Htry. }
  assert (Hrun : fetchUserDetails 3 w = (Resolved clean, w2))
    by (rewrite fetchUserDetails_S, Htry; reflexivity).
  split; [exact Hrun|]. split; [apply sent_stored_world|]. split.
  - cbn [cache w2]. apply lookup_insert_eq.
  - unfold module_load, userDetailsPromise_init, try_catch. rewrite Hrun.
    reflexivity.
Qed.

(** C7. Whatever value the identity promise resolved to, [getModhash]
    reads its [data] and then the [modhash] of that, and [getCurrentUser]
    its [data] and then the [name] of that: for an object whose [data] is
    an object they return its [modhash] and [name] fields. If the promise
    resolved to [undefined], both reject with a [TypeError] instead of
    returning a value. Neither touches the world. *)
Theorem getModhash_getCurrentUser_read
    (m : ApiModule) (w : World) (userDetails : value) :
  getUserDetails m = Resolved userDetails ->
  getModhash m w
  = (member userDetails "data" ≫= fun data => member data "modhash") w
  /\ getCurrentUser m w
     = (member userDetails "data" ≫= fun data => member data "name") w
  /\ (forall props data,
        userDetails = VObj props -> Obj.get "data" props = VObj data ->
        getModhash m w = (Resolved (Obj.get "modhash" data), w)
        /\ getCurrentUser m w = (Resolved (Obj.get "name" data), w))
  /\ (userDetails = VUndefined ->
        exists e,
          getModhash m w = (Rejected e, w)
          /\ getCurrentUser m w = (Rejected e, w)
          /\ err_name e = "TypeError").
Proof.
  intros Hpromise. unfold getModhash, getCurrentUser. rewrite Hpromise.
  split; [reflexivity|]. split; [reflexivity|]. split.
  - intros props data -> Hdata. run. cbn [member]. run. rewrite Hdata.
    split; reflexivity.
  - intros ->. eexists. run. cbn [member]. run.
    split; [reflexivity|]. split; reflexivity.
Qed.

End properties.

(** * Properties of the rest of the module *)

Section more_properties.
Context {host : Platform}.
Variable native_source : string -> string.
Variable string_gt_zero : string -> bool.
Variable number_text : Z -> string.

#[local] Existing Instances M_ret M_bind.

Ltac run :=
  unfold mbind, M_bind, mret, M_ret, throw, lift, await, try_catch in *;
  cbn beta iota in *.

(** ** The relay *)

Lemma member_own_read v p :
  member v p
  = match own_read v p with
    | Some x => mret x
    | None => throw (TypeError ("Cannot read properties of " +:+ to_string v))
    end.
Proof. destruct v; reflexivity. Qed.

Lemma sendRequest_settles props w :
  sendRequest (VObj props) w
  = (match background w (length (sent w)) (request_message props) with
     | inl e => Rejected e
     | inr reply => relay_outcome reply
     end,
     record (EvSendMessage (request_message props)) w).
Proof.
  unfold sendRequest, runtime_sendMessage. cbn [member]. run.
  fold (request_message props).
  destruct (background w _ _) as [e|reply]; [reflexivity|].
  unfold relay_outcome.
  destruct reply; cbn [member own_read]; run; try reflexivity;
    (destruct (truthy _); [destruct (truthy _) eqn:Hresponse|]);
    try reflexivity;
    (match goal with
     | |- context [spread_args ?v] =>
         destruct v; cbn [spread_args iterable]; run; try reflexivity;
         try discriminate
     end;
     match goal with
     | |- context [Response_new ?args] => destruct (Response_new args)
     end; reflexivity).
Qed.

(** X1. A call of the relay with an object descriptor resolves to [r]
    exactly when the transport delivered a reply that is neither
    [undefined] nor [null], whose [error] is falsy and whose [response] is
    iterable with elements from which the constructor built [r]; the
    world is then the one in which the single message was posted. *)
Theorem sendRequest_resolves_iff
    (props : list (string * value)) (w : World) (r : Response) (w' : World) :
  sendRequest (VObj props) w = (Resolved r, w')
  <-> w' = record (EvSendMessage (request_message props)) w
      /\ exists reply error response args,
           background w (length (sent w)) (request_message props) = inr reply
           /\ own_read reply "error" = Some error
           /\ truthy error = false
           /\ own_read reply "response" = Some response
           /\ iterable response = Some args
           /\ Response_new args = inr r.
Proof.
  rewrite sendRequest_settles. split.
  - intros [= Hout <-]. split; [reflexivity|].
    destruct (background w _ _) as [e|reply]; [discriminate|].
    exists reply. unfold relay_outcome in Hout.
    destruct (own_read reply "error") as [error|]; [|discriminate].
    destruct (own_read reply "message") as [message|]; [|discriminate].
    destruct (own_read reply "response") as [response|]; [|discriminate].
    exists error, response.
    destruct (truthy error).
    { destruct (truthy response); [|discriminate].
      destruct (iterable response); [|discriminate].
      destruct (Response_new l); discriminate. }
    destruct (iterable response) as [args|]; [|discriminate].
    exists args. destruct (Response_new args) as [|r'] eqn:Hnew; [discriminate|].
    injection Hout as ->. auto 10.
  - intros (-> & reply & error & response & args
            & -> & Herror & Hfalsy & Hresponse & Hiter & Hnew).
    unfold relay_outcome. rewrite Herror, Hresponse, Hfalsy, Hiter, Hnew.
    destruct reply; try discriminate; reflexivity.
Qed.


(** ** The wrappers *)

(** What the relay posts for a descriptor [d]. *)
Lemma request_message_field props :
  request_message props
  = tb_request (field "method" (VObj props)) (field "endpoint" (VObj props))
               (field "query" (VObj props)) (field "body" (VObj props))
               (field "oauth" (VObj props)) (field "okOnly" (VObj props)).
Proof. reflexivity. Qed.

Lemma sendRequest_then_json props w :
  exists outcome,
    (sendRequest (VObj props) ≫= fun response => lift (Response_json response)) w
    = (outcome, record (EvSendMessage (request_message props)) w).
Proof.
  destruct (sendRequest_object props w) as [[response|e] Hrun];
    run; rewrite Hrun; [|eauto].
  destruct (Response_json response); eauto.
Qed.

(** X3. Whatever its arguments, a wrapper posts exactly one message and
    changes nothing else: the message has the action [tb-request] and the
    six fields of the wrapper's descriptor, so a key of [options] other
    than these six never reaches the transport. *)
Theorem wrappers_post_one_message
    (endpoint query body options : value) (w : World) :
  let posts {A} (call : M A) (d : value) :=
    exists outcome,
      call w
      = (outcome,
         record (EvSendMessage
                   (tb_request (field "method" d) (field "endpoint" d)
                               (field "query" d) (field "body" d)
                               (field "oauth" d) (field "okOnly" d))) w) in
  posts (getJSON endpoint query options) (getJSON_options endpoint query options)
  /\ posts (post endpoint body options) (post_options endpoint body options)
  /\ posts (apiOauthPOST endpoint body options)
           (apiOauthPOST_options endpoint body options)
  /\ posts (apiOauthGET endpoint query) (apiOauthGET_options endpoint query)
  /\ posts (apiOauthDELETE endpoint query)
           (apiOauthDELETE_options endpoint query).
Proof.
  cbv zeta beta.
  unfold getJSON, post, apiOauthPOST, apiOauthGET, apiOauthDELETE,
    getJSON_options, post_options, apiOauthPOST_options,
    apiOauthGET_options, apiOauthDELETE_options.
  repeat split;
    rewrite <- request_message_field;
    first [apply sendRequest_then_json | apply sendRequest_object].
Qed.

(** ** The user identity cache *)

Lemma fetchUserDetails_try_resolved w clean w1 :
  fetchUserDetails_try w = (Resolved clean, w1) ->
  exists data,
    getJSON (VStr "/api/me.json") VUndefined VUndefined w
    = (Resolved data, record (EvSendMessage me_request) w)
    /\ clean = purifyObject data /\ w1 = stored_world data w.
Proof.
  intros Htry.
  destruct (fetchUserDetails_try_run w)
    as [(data & Hjson & Hrun)|(e & _ & Hrun)]; rewrite Hrun in Htry;
    [|discriminate].
  injection Htry as <- <-. eauto.
Qed.

Lemma record_sends_1 w :
  record (EvSendMessage me_request) w
  = mkWorld (background w)
            (trace w ++ replicate 1 (EvSendMessage me_request)) (cache w).
Proof. reflexivity. Qed.

Lemma record_sends_S n w :
  record (EvSendMessage me_request)
    (mkWorld (background w)
             (trace w ++ replicate n (EvSendMessage me_request)) (cache w))
  = mkWorld (background w)
            (trace w ++ replicate (S n) (EvSendMessage me_request)) (cache w).
Proof.
  unfold record. cbn [background trace cache]. f_equal.
  rewrite <- app_assoc. f_equal.
  change [EvSendMessage me_request]
    with (replicate 1 (EvSendMessage me_request)).
  rewrite <- replicate_add, Nat.add_1_r. reflexivity.
Qed.

Lemma stored_world_sends data n w :
  stored_world data
    (mkWorld (background w)
             (trace w ++ replicate n (EvSendMessage me_request)) (cache w))
  = mkWorld (background w)
      (trace w ++ replicate (S n) (EvSendMessage me_request)
         ++ [EvPurifyObject data;
             EvSetCache "Utils" "userDetails" (purifyObject data)])
      (<[("Utils", "userDetails") := purifyObject data]> (cache w)).
Proof.
  unfold stored_world. cbn [background trace cache]. f_equal.
  rewrite <- app_assoc. f_equal.
  change (EvSendMessage me_request :: ?l)
    with (replicate 1 (EvSendMessage me_request) ++ l).
  rewrite app_assoc, <- replicate_add, Nat.add_1_r. reflexivity.
Qed.

(** The worlds a fetch sequence can end in: [n] requests, followed by the
    sanitising and the storing if and only if it resolved. *)
Lemma fetchUserDetails_worlds w :
  exists n : nat,
    (1 <= n <= 3)%nat
    /\ let sends :=
         mkWorld (background w)
                 (trace w ++ replicate (n - 1) (EvSendMessage me_request))
                 (cache w) in
       (exists data,
          getJSON (VStr "/api/me.json") VUndefined VUndefined sends
          = (Resolved data, record (EvSendMessage me_request) sends)
          /\ fetchUserDetails 3 w
              = (Resolved (purifyObject data), stored_world data sends))
       \/ (exists e,
          fetchUserDetails 3 w
          = (Rejected e, record (EvSendMessage me_request) sends)).
Proof.
  assert (H0 : mkWorld (background w)
                 (trace w ++ replicate 0 (EvSendMessage me_request)) (cache w)
               = w).
  { cbn [replicate]. rewrite app_nil_r. destruct w; reflexivity. }
  assert (Hstep : forall w0 e w1,
            fetchUserDetails_try w0 = (Rejected e, w1) ->
            w1 = record (EvSendMessage me_request) w0)
    by (intros; eapply fetchUserDetails_try_rejected; eassumption).
  assert (Hend : forall w0 outcome w1,
            fetchUserDetails_try w0 = (outcome, w1) ->
            (exists data,
               getJSON (VStr "/api/me.json") VUndefined VUndefined w0
               = (Resolved data, record (EvSendMessage me_request) w0)
               /\ (outcome, w1)
                   = (Resolved (purifyObject data), stored_world data w0))
            \/ (exists e, (outcome, w1)
                          = (Rejected e, record (EvSendMessage me_request) w0))).
  { intros w0 [clean|e] w1 Htry.
    - left. destruct (fetchUserDetails_try_resolved _ _ _ Htry)
        as (data & Hjson & -> & ->). eauto.
    - right. rewrite (Hstep _ _ _ Htry). eauto. }
  destruct (fetchUserDetails_cases w)
    as [(data & w1 & H1 & ->)
       |[(e1 & w1 & H1 & _ & ->)
        |[(e1 & w1 & o2 & w2 & H1 & _ & H2 & _ & ->)
         |(e1 & w1 & e2 & w2 & H1 & _ & H2 & _ & ->)]]].
  - exists 1%nat. split; [lia|]. cbn [Nat.sub]. cbv zeta. rewrite H0.
    apply (Hend _ _ _ H1).
  - exists 1%nat. split; [lia|]. cbn [Nat.sub]. cbv zeta. rewrite H0.
    apply (Hend _ _ _ H1).
  - exists 2%nat. split; [lia|]. cbn [Nat.sub]. cbv zeta.
    rewrite <- record_sends_1, <- (Hstep _ _ _ H1).
    apply (Hend _ _ _ H2).
  - exists 3%nat. split; [lia|]. cbn [Nat.sub]. cbv zeta.
    rewrite <- record_sends_S, <- record_sends_1, <- (Hstep _ _ _ H1),
      <- (Hstep _ _ _ H2).
    destruct (fetchUserDetails_try w2) as [o3 w3] eqn:H3.
    apply (Hend _ _ _ H3).
Qed.

(** X4. Whenever the fetch sequence resolves, it does so in its [n]-th
    attempt, with [n] between one and three: the attempts before left
    nothing but their [n - 1] requests, in the world they left the
    [getJSON] of the [n]-th attempt posted the [n]-th request and resolved
    to some [data], and the sequence resolves with that [data] sanitised;
    the world then holds, after the [n] requests and nothing else, the
    sanitising of [data] and the write of the sanitised data under
    [(Utils, userDetails)]. *)
Theorem fetchUserDetails_success_effects (w : World) (clean : value) (w' : World) :
  fetchUserDetails 3 w = (Resolved clean, w') ->
  exists (n : nat) (data : value),
    (1 <= n <= 3)%nat
    /\ (let before :=
          mkWorld (background w)
                  (trace w ++ replicate (n - 1) (EvSendMessage me_request))
                  (cache w) in
        getJSON (VStr "/api/me.json") VUndefined VUndefined before
        = (Resolved data, record (EvSendMessage me_request) before))
    /\ clean = purifyObject data
    /\ w' = mkWorld (background w)
              (trace w ++ replicate n (EvSendMessage me_request)
                 ++ [EvPurifyObject data;
                     EvSetCache "Utils" "userDetails" clean])
              (<[("Utils", "userDetails") := clean]> (cache w)).
Proof.
  intros Hrun.
  destruct (fetchUserDetails_worlds w)
    as (n & Hn & [(data & Hjson & H)|(e & H)]);
    rewrite H in Hrun; [|discriminate].
  injection Hrun as <- <-. exists n, data. split; [exact Hn|].
  split; [exact Hjson|].
  split; [reflexivity|]. rewrite stored_world_sends.
  replace (S (n - 1)) with n by lia. reflexivity.
Qed.

(** X5. Whenever the fetch sequence rejects, it has posted its request
    [n] times, with [n] between one and three, and has done nothing else:
    no sanitising, no write, and the cache is as it was. *)
Theorem fetchUserDetails_failure_effects (w : World) (e : Err) (w' : World) :
  fetchUserDetails 3 w = (Rejected e, w') ->
  exists n : nat,
    (1 <= n <= 3)%nat
    /\ w' = mkWorld (background w)
              (trace w ++ replicate n (EvSendMessage me_request)) (cache w).
Proof.
  intros Hrun.
  destruct (fetchUserDetails_worlds w) as (n & Hn & [(data & _ & H)|(e' & H)]);
    rewrite H in Hrun; [discriminate|].
  injection Hrun as _ <-. exists n. split; [exact Hn|].
  rewrite record_sends_S. replace (S (n - 1)) with n by lia. reflexivity.
Qed.

(** X6. The identity promise never rejects, and once the module is loaded
    it and the durable cache agree: the promise has resolved to the value
    that the cache then holds under [(Utils, userDetails)], or to
    [undefined] when the cache holds nothing there. *)
Theorem userDetailsPromise_agrees_with_cache (w : World) :
  exists v,
    userDetailsPromise (module_load w).1 = Resolved v
    /\ v = default VUndefined
             (cache (module_load w).2 !! ("Utils", "userDetails")).
Proof.
  unfold module_load, userDetailsPromise_init, try_catch.
  destruct (fetchUserDetails_worlds w) as (n & _ & [(data & _ & ->)|(e & ->)]).
  - exists (purifyObject data). split; [reflexivity|].
    cbn [snd cache stored_world]. rewrite lookup_insert_eq. reflexivity.
  - eexists. split; reflexivity.
Qed.

(** X7. For every retry budget the sequence terminates after at least one
    and at most [max 1 tries] requests, and posts nothing but that
    request. *)
Theorem fetchUserDetails_bounded (tries : nat) (w : World) :
  exists n : nat,
    (1 <= n <= Nat.max 1 tries)%nat
    /\ sent (fetchUserDetails tries w).2 = sent w ++ replicate n me_request.
Proof.
  revert w. induction tries as [|tries IH]; intros w.
  - exists 1%nat. split; [lia|]. cbn [fetchUserDetails]. unfold try_catch.
    pose proof (fetchUserDetails_try_sent w) as Hsent.
    destruct (fetchUserDetails_try w) as [[data|e] w1]; [exact Hsent|].
    destruct (_ && _); exact Hsent.
  - rewrite fetchUserDetails_S.
    pose proof (fetchUserDetails_try_sent w) as Hsent.
    destruct (fetchUserDetails_try w) as [[data|e] w1];
      [exists 1%nat; split; [lia|exact Hsent]|].
    destruct (gateway_timeout e && (1 <? S tries)%nat) eqn:Hretry;
      [|exists 1%nat; split; [lia|exact Hsent]].
    apply andb_true_iff in Hretry as [_ Hbudget].
    apply Nat.ltb_lt in Hbudget.
    destruct (IH w1) as (n & Hn & Hrest). exists (S n). split; [lia|].
    rewrite Hrest. cbn [snd] in Hsent. rewrite Hsent, <- app_assoc.
    reflexivity.
Qed.

(** ** Moderator actions *)

Lemma getModhash_settles m :
  exists outcome, forall w, getModhash m w = (outcome, w).
Proof. exact (pure_call m CallGetModhash). Qed.

Lemma post_posts endpoint body w :
  exists outcome,
    post endpoint body VUndefined w
    = (outcome,
       record (EvSendMessage
                 (tb_request (VStr "POST") endpoint VUndefined body
                             VUndefined (VBool true))) w).
Proof.
  exact (sendRequest_then_json
           [("okOnly", VBool true); ("method", VStr "POST");
            ("endpoint", endpoint); ("body", body)] w).
Qed.

Lemma apiOauthPOST_posts endpoint body w :
  exists outcome,
    apiOauthPOST endpoint body VUndefined w
    = (outcome,
       record (EvSendMessage
                 (tb_request (VStr "POST") endpoint VUndefined body
                             (VBool true) (VBool true))) w).
Proof.
  exact (sendRequest_object
           [("method", VStr "POST"); ("oauth", VBool true);
            ("endpoint", endpoint); ("body", body); ("okOnly", VBool true)] w).
Qed.

Lemma apiOauthGET_posts endpoint query w :
  exists outcome,
    apiOauthGET endpoint query w
    = (outcome,
       record (EvSendMessage
                 (tb_request (VStr "GET") endpoint query VUndefined
                             (VBool true) (VBool true))) w).
Proof.
  exact (sendRequest_object
           [("method", VStr "GET"); ("oauth", VBool true);
            ("endpoint", endpoint); ("query", query); ("okOnly", VBool true)] w).
Qed.

Lemma apiOauthDELETE_posts endpoint query w :
  exists outcome,
    apiOauthDELETE endpoint query w
    = (outcome,
       record (EvSendMessage
                 (tb_request (VStr "DELETE") endpoint query VUndefined
                             (VBool true) (VBool true))) w).
Proof.
  exact (sendRequest_object
           [("method", VStr "DELETE"); ("oauth", VBool true);
            ("endpoint", endpoint); ("query", query); ("okOnly", VBool true)] w).
Qed.

(** X8. The moderator actions read the modhash before they post: when
    [getModhash] rejects, [distinguishThing], [removeThing] and [lock]
    reject with the same error and post nothing. *)
Theorem mod_actions_wait_for_modhash
    (m : ApiModule) (w : World) (e : Err) (id sticky spam : value) :
  (getModhash m w).1 = Rejected e ->
  distinguishThing m id sticky w = (Rejected e, w)
  /\ removeThing m id spam w = (Rejected e, w)
  /\ lock m id w = (Rejected e, w).
Proof.
  intros Hmodhash. destruct (getModhash_settles m) as [outcome Hpure].
  rewrite Hpure in Hmodhash. cbn [fst] in Hmodhash. subst outcome.
  unfold distinguishThing, removeThing, lock. run. rewrite !Hpure.
  repeat split.
Qed.

(** X9. When [getModhash] resolves to [uh], whatever value that is, each
    moderator action posts exactly one message and changes nothing else:
    [distinguishThing] a POST to [/api/distinguish/yes] with the body
    [{id, sticky, uh}], [removeThing] a POST to [/api/remove] with the body
    [{uh, id, spam}], in which an omitted [spam] is [false], both with
    [okOnly] and without [oauth]; [lock] a POST to [/api/lock] with the
    body [{id, uh}], with [oauth] and [okOnly]. *)
Theorem mod_actions_post
    (m : ApiModule) (w : World) (uh id sticky spam : value) :
  (getModhash m w).1 = Resolved uh ->
  (exists outcome,
     distinguishThing m id sticky w
     = (outcome,
        record (EvSendMessage
                  (tb_request (VStr "POST") (VStr "/api/distinguish/yes")
                     VUndefined
                     (VObj [("id", id); ("sticky", sticky); ("uh", uh)])
                     VUndefined (VBool true))) w))
  /\ (exists outcome,
        removeThing m id spam w
        = (outcome,
           record (EvSendMessage
                     (tb_request (VStr "POST") (VStr "/api/remove") VUndefined
                        (VObj [("uh", uh); ("id", id);
                               ("spam", match spam with
                                        | VUndefined => VBool false
                                        | _ => spam
                                        end)])
                        VUndefined (VBool true))) w))
  /\ (exists outcome,
        lock m id w
        = (outcome,
           record (EvSendMessage
                     (tb_request (VStr "POST") (VStr "/api/lock") VUndefined
                        (VObj [("id", id); ("uh", uh)])
                        (VBool true) (VBool true))) w)).
Proof.
  intros Hmodhash. destruct (getModhash_settles m) as [outcome Hpure].
  rewrite Hpure in Hmodhash. cbn [fst] in Hmodhash. subst outcome.
  unfold distinguishThing, removeThing, lock. run. rewrite !Hpure.
  split; [apply post_posts|]. split; [apply post_posts|].
  apply apiOauthPOST_posts.
Qed.

(** ** Mod notes *)

Lemma purified_json_run r w :
  purified_json r w
  = match Response_json r with
    | inl e => (Rejected e, w)
    | inr data =>
        (Resolved (purifyObject data), record (EvPurifyObject data) w)
    end.
Proof.
  unfold purified_json, TBStorage_purifyObject. run.
  destruct (Response_json r); reflexivity.
Qed.

(** How a request for notes settles once the relay posted it. *)
Lemma notes_settle (request : M Response) outcome w w1 :
  request w = (outcome, w1) ->
  match outcome with
  | Rejected e =>
      (response ← request; response ← purified_json response;
       member response "mod_notes") w = (Rejected e, w1)
  | Resolved r =>
      match Response_json r with
      | inl e =>
          (response ← request; response ← purified_json response;
           member response "mod_notes") w = (Rejected e, w1)
      | inr data =>
          match own_read (purifyObject data) "mod_notes" with
          | Some notes =>
              (response ← request; response ← purified_json response;
               member response "mod_notes") w
              = (Resolved notes, record (EvPurifyObject data) w1)
          | None =>
              exists e,
                (response ← request; response ← purified_json response;
                 member response "mod_notes") w
                = (Rejected e, record (EvPurifyObject data) w1)
                /\ err_name e = "TypeError"
          end
      end
  end.
Proof.
  intros Hrequest. run. rewrite Hrequest.
  destruct outcome as [r|e]; [|reflexivity].
  rewrite purified_json_run. destruct (Response_json r) as [e|data];
    [reflexivity|].
  rewrite member_own_read.
  destruct (own_read (purifyObject data) "mod_notes"); [reflexivity|].
  eexists. split; reflexivity.
Qed.

(** X10. [getModNotes] posts one OAuth GET to [/api/mod/notes] whose query
    carries the three arguments and [limit: 100]. A rejection of the relay
    or of the decoding propagates unchanged, and nothing is sanitised.
    Otherwise the decoded body is sanitised once, after the request, and
    the call resolves with the [mod_notes] of the sanitised body, or
    rejects with a [TypeError] when that body is [null] or [undefined].
    The cache is never written. *)
Theorem getModNotes_settles (subreddit user before : value) (w : World) :
  let query :=
    VObj [("subreddit", subreddit); ("user", user); ("before", before);
          ("limit", VNum 100)] in
  let w1 :=
    record (EvSendMessage
              (tb_request (VStr "GET") (VStr "/api/mod/notes") query
                          VUndefined (VBool true) (VBool true))) w in
  exists outcome,
    apiOauthGET (VStr "/api/mod/notes") query w = (outcome, w1)
    /\ cache (getModNotes subreddit user before w).2 = cache w
    /\ match outcome with
       | Rejected e => getModNotes subreddit user before w = (Rejected e, w1)
       | Resolved r =>
           match Response_json r with
           | inl e => getModNotes subreddit user before w = (Rejected e, w1)
           | inr data =>
               match own_read (purifyObject data) "mod_notes" with
               | Some notes =>
                   getModNotes subreddit user before w
                   = (Resolved notes, record (EvPurifyObject data) w1)
               | None =>
                   exists e,
                     getModNotes subreddit user before w
                     = (Rejected e, record (EvPurifyObject data) w1)
                     /\ err_name e = "TypeError"
               end
           end
       end.
Proof.
  intros query w1.
  destruct (apiOauthGET_posts (VStr "/api/mod/notes") query w)
    as [outcome Hrequest].
  exists outcome. split; [exact Hrequest|].
  pose proof (notes_settle _ _ _ _ Hrequest) as Hsettle.
  subst query. fold (getModNotes subreddit user before) in Hsettle. split.
  - destruct outcome as [r|e]; [|rewrite Hsettle; reflexivity].
    destruct (Response_json r) as [e|data]; [rewrite Hsettle; reflexivity|].
    destruct (own_read (purifyObject data) "mod_notes");
      [rewrite Hsettle; reflexivity|].
    destruct Hsettle as (e & -> & _). reflexivity.
  - exact Hsettle.
Qed.

(** On the values that [printable] accepts, the conversion does not throw
    and [to_string] computes it. *)
Lemma value_elems_ind (P : value -> Prop) :
  (forall v, (forall elems, v <> VArr elems) -> P v) ->
  (forall elems, Forall P elems -> P (VArr elems)) ->
  forall v, P v.
Proof.
  intros Hleaf Harr. fix IH 1. intros v.
  destruct v as [| | | | |elems|]; try (apply Hleaf; discriminate).
  apply Harr. revert elems. fix IHelems 1. intros [|x rest].
  - apply Forall_nil_2.
  - apply Forall_cons_2; [apply IH|apply IHelems].
Qed.

Lemma js_text_printable v :
  printable v = true -> js_text number_text v = Some (to_string v).
Proof.
  induction v as [v Hleaf|elems IH] using value_elems_ind.
  - destruct v as [| |[|]|n|s|elems|props]; cbn [printable];
      try reflexivity.
    + intros Hn. cbn [js_text to_string]. rewrite Hn. reflexivity.
    + destruct (Hleaf elems eq_refl).
    + intros Hprops. cbn [js_text to_string].
      destruct (bool_decide _); [discriminate|reflexivity].
  - cbn [printable js_text to_string].
    induction IH as [|x rest Hx _ IHrest]; [reflexivity|].
    cbn [forallb]. intros Helems.
    apply andb_true_iff in Helems as [Hprintable Hrest].
    specialize (IHrest Hrest).
    assert (Hitem :
      match x with
      | VUndefined | VNull => Some ""
      | _ => js_text number_text x
      end
      = Some match x with VUndefined | VNull => "" | _ => to_string x end).
    { destruct x; try reflexivity; apply Hx; exact Hprintable. }
    destruct rest as [|y rest]; [exact Hitem|].
    rewrite Hitem, IHrest. reflexivity.
Qed.

Lemma js_text_names (names : list string) :
  js_text number_text (VArr (VStr <$> names)) = Some (String.concat "," names).
Proof.
  induction names as [|name rest IH]; [reflexivity|].
  destruct rest as [|name' rest]; [reflexivity|].
  change (js_text number_text (VArr (VStr <$> name :: name' :: rest)))
    with (match js_text number_text (VArr (VStr <$> name' :: rest)) with
          | Some b => Some (name +:+ "," +:+ b)
          | None => None
          end).
  rewrite IH. reflexivity.
Qed.

Lemma join_comma_run names :
  match names with
  | VArr _ =>
      match js_text number_text names with
      | Some text => join_comma number_text names = mret (VStr text)
      | None =>
          exists e,
            join_comma number_text names = throw e /\ err_name e = "TypeError"
      end
  | _ =>
      exists e,
        join_comma number_text names = throw e /\ err_name e = "TypeError"
  end.
Proof.
  destruct names; try (eexists; split; reflexivity).
  unfold join_comma, to_text.
  destruct (js_text number_text (VArr elems)); [reflexivity|].
  eexists; split; reflexivity.
Qed.

(** X11. [getRecentModNotes] calls [join] on both arguments before it
    posts: when one of them is not an array, or is an array with an
    element whose conversion to a string throws, it fails with a
    [TypeError] and posts nothing. For two arrays that [join] turns into
    the texts [s] and [u] (for an array of names, the names separated by
    commas) it posts one OAuth GET to [/api/mod/notes/recent] whose query
    holds [s] and [u] and no limit, and then settles as [getModNotes]
    does. *)
Theorem getRecentModNotes_settles (subreddits users : value) (w : World) :
  let joined v :=
    match v with VArr _ => js_text number_text v | _ => None end in
  (joined subreddits = None \/ joined users = None ->
   exists e,
     getRecentModNotes number_text subreddits users w = (Rejected e, w)
     /\ err_name e = "TypeError")
  /\ (forall names : list string,
        joined (VArr (VStr <$> names)) = Some (String.concat "," names))
  /\ (forall s u,
        joined subreddits = Some s -> joined users = Some u ->
        let query := VObj [("subreddits", VStr s); ("users", VStr u)] in
        let w1 :=
          record (EvSendMessage
                    (tb_request (VStr "GET") (VStr "/api/mod/notes/recent")
                                query VUndefined (VBool true) (VBool true))) w in
        let call := getRecentModNotes number_text subreddits users w in
        exists outcome,
          apiOauthGET (VStr "/api/mod/notes/recent") query w = (outcome, w1)
          /\ match outcome with
             | Rejected e => call = (Rejected e, w1)
             | Resolved r =>
                 match Response_json r with
                 | inl e => call = (Rejected e, w1)
                 | inr data =>
                     match own_read (purifyObject data) "mod_notes" with
                     | Some notes =>
                         call
                         = (Resolved notes, record (EvPurifyObject data) w1)
                     | None =>
                         exists e,
                           call
                           = (Rejected e, record (EvPurifyObject data) w1)
                           /\ err_name e = "TypeError"
                     end
                 end
             end).
Proof.
  intros joined.
  assert (Hjoin : forall v,
    match joined v with
    | Some text => join_comma number_text v = mret (VStr text)
    | None =>
        exists e, join_comma number_text v = throw e /\ err_name e = "TypeError"
    end).
  { intros v. pose proof (join_comma_run v) as Hrun. subst joined.
    destruct v; exact Hrun. }
  split; [|split].
  - intros Hnot. unfold getRecentModNotes.
    pose proof (Hjoin subreddits) as Hs. pose proof (Hjoin users) as Hu.
    destruct (joined subreddits) as [s|].
    + destruct Hnot as [|Hnot]; [discriminate|]. rewrite Hnot in Hu.
      destruct Hu as (e & Hu & Hname). exists e. rewrite Hs, Hu.
      split; [reflexivity|exact Hname].
    + destruct Hs as (e & Hs & Hname). exists e. rewrite Hs.
      split; [reflexivity|exact Hname].
  - intros names. apply js_text_names.
  - intros s u Hs Hu query w1 call.
    pose proof (Hjoin subreddits) as Hsrun. pose proof (Hjoin users) as Hurun.
    rewrite Hs in Hsrun. rewrite Hu in Hurun.
    destruct (apiOauthGET_posts (VStr "/api/mod/notes/recent") query w)
      as [outcome Hrequest].
    exists outcome. split; [exact Hrequest|].
    pose proof (notes_settle _ _ _ _ Hrequest) as Hsettle.
    subst call. unfold getRecentModNotes. rewrite Hsrun, Hurun.
    exact Hsettle.
Qed.

(** X12. [createModNote] and [deleteModNote] read the fields of their
    argument first: on [undefined] or [null] they fail with a [TypeError]
    and post nothing. On any other argument each posts exactly one OAuth
    message to [/api/mod/notes] and changes nothing else: [createModNote]
    a POST whose body holds [subreddit], [user], [note], [label] and the
    argument's [redditID] under the key [reddit_id]; [deleteModNote] a
    DELETE whose query holds [subreddit], [user] and the argument's [id]
    under the key [note_id]. A field that the argument lacks is sent as
    [undefined]. *)
Theorem mod_note_writes (data : value) (w : World) :
  let read k := default VUndefined (own_read data k) in
  (data = VUndefined \/ data = VNull ->
   exists e,
     createModNote data w = (Rejected e, w)
     /\ deleteModNote data w = (Rejected e, w)
     /\ err_name e = "TypeError")
  /\ (data <> VUndefined -> data <> VNull ->
      (exists outcome,
         createModNote data w
         = (outcome,
            record (EvSendMessage
                      (tb_request (VStr "POST") (VStr "/api/mod/notes")
                         VUndefined
                         (VObj [("subreddit", read "subreddit");
                                ("user", read "user");
                                ("note", read "note");
                                ("label", read "label");
                                ("reddit_id", read "redditID")])
                         (VBool true) (VBool true))) w))
      /\ (exists outcome,
            deleteModNote data w
            = (outcome,
               record (EvSendMessage
                         (tb_request (VStr "DELETE") (VStr "/api/mod/notes")
                            (VObj [("subreddit", read "subreddit");
                                   ("user", read "user");
                                   ("note_id", read "id")])
                            VUndefined (VBool true) (VBool true))) w))).
Proof.
  intros read. split.
  - intros [-> | ->]; eexists; (split; [|split]); reflexivity.
  - intros Hundefined Hnull. subst read.
    unfold createModNote, deleteModNote.
    split.
    + destruct data; try congruence; cbn [member own_read]; run;
        apply apiOauthPOST_posts.
    + destruct data; try congruence; cbn [member own_read]; run;
        apply apiOauthDELETE_posts.
Qed.

(** ** The tally of note labels *)

Lemma tally_lookup_set k k' e tally :
  tally_lookup k (tally_set k' e tally)
  = if String.eqb k k' then Some e else tally_lookup k tally.
Proof.
  induction tally as [|[k0 e0] rest IH]; cbn.
  - destruct (String.eqb_spec k k'); reflexivity.
  - destruct (String.eqb_spec k' k0) as [->|Hne]; cbn.
    + destruct (String.eqb_spec k k0); reflexivity.
    + destruct (String.eqb_spec k k0) as [->|Hne'].
      * destruct (String.eqb_spec k0 k'); [congruence|reflexivity].
      * exact IH.
Qed.

Lemma tally_total_set_new k n tally :
  tally_lookup k tally = None ->
  tally_total (tally_set k (Count n) tally) = (tally_total tally + n)%Z.
Proof.
  induction tally as [|[k0 e0] rest IH]; cbn; [lia|].
  destruct (String.eqb_spec k k0) as [->|Hne]; [discriminate|].
  intros Hnone. cbn. rewrite (IH Hnone). destruct e0; lia.
Qed.

Lemma tally_total_set_count k n n' tally :
  tally_lookup k tally = Some (Count n) ->
  tally_total (tally_set k (Count n') tally)
  = (tally_total tally - n + n')%Z.
Proof.
  induction tally as [|[k0 e0] rest IH]; cbn; [discriminate|].
  destruct (String.eqb_spec k k0) as [->|Hne].
  - intros [= ->]. cbn. lia.
  - intros Hsome. cbn. rewrite (IH Hsome). destruct e0; lia.
Qed.

Lemma occurrences_nonneg k keys : (0 <= occurrences k keys)%Z.
Proof.
  induction keys as [|k' rest IH]; cbn; [lia|].
  destruct (String.eqb k k'); lia.
Qed.

Lemma not_inherited_not_proto key :
  key ∉ inherited_keys -> String.eqb key "__proto__" = false.
Proof.
  intros Hnot. destruct (String.eqb_spec key "__proto__") as [->|]; [|done].
  exfalso. apply Hnot. unfold inherited_keys. set_solver.
Qed.

(** One more label, on a tally that holds positive counts only. *)
Lemma tally_add_counts tally key :
  (forall k e, tally_lookup k tally = Some e -> exists n, e = Count n /\ (1 <= n)%Z) ->
  key ∉ inherited_keys ->
  let current :=
    match tally_lookup key tally with Some (Count n) => n | _ => 0%Z end in
  (forall k,
     tally_lookup k (tally_add native_source tally key)
     = if String.eqb k key then Some (Count (current + 1))
       else tally_lookup k tally)
  /\ tally_total (tally_add native_source tally key)
     = (tally_total tally + 1)%Z.
Proof.
  intros Hinv Hnot current. subst current. unfold tally_add.
  rewrite (not_inherited_not_proto _ Hnot).
  destruct (tally_lookup key tally) as [e|] eqn:Hlookup.
  - destruct (Hinv _ _ Hlookup) as (n & -> & Hn).
    destruct (Z.eqb_spec n 0) as [->|_]; [lia|]. split.
    + intros k. apply tally_lookup_set.
    + rewrite (tally_total_set_count _ _ _ _ Hlookup). lia.
  - rewrite bool_decide_eq_false_2 by exact Hnot. split.
    + intros k. apply tally_lookup_set.
    + apply tally_total_set_new. exact Hlookup.
Qed.

Lemma tally_fold_counts keys : forall tally,
  (forall k e, tally_lookup k tally = Some e -> exists n, e = Count n /\ (1 <= n)%Z) ->
  Forall (fun key => key ∉ inherited_keys) keys ->
  (forall k,
     tally_lookup k (fold_left (tally_add native_source) keys tally)
     = match tally_lookup k tally with
       | Some (Count n) => Some (Count (n + occurrences k keys))
       | Some (Text s) => Some (Text s)
       | None =>
           if (occurrences k keys =? 0)%Z then None
           else Some (Count (occurrences k keys))
       end)
  /\ tally_total (fold_left (tally_add native_source) keys tally)
     = (tally_total tally + Z.of_nat (length keys))%Z.
Proof.
  induction keys as [|key rest IH]; intros tally Hinv Hkeys.
  - cbn. split; [|lia]. intros k.
    destruct (tally_lookup k tally) as [[n|s]|]; [|reflexivity..].
    rewrite Z.add_0_r. reflexivity.
  - apply Forall_cons in Hkeys as [Hkey Hrest].
    destruct (tally_add_counts tally key Hinv Hkey) as [Hstep Htotal].
    assert (Hinv' : forall k e,
      tally_lookup k (tally_add native_source tally key) = Some e ->
      exists n, e = Count n /\ (1 <= n)%Z).
    { intros k e. rewrite Hstep.
      destruct (String.eqb k key); [|apply Hinv].
      intros [= <-]. eexists. split; [reflexivity|].
      destruct (tally_lookup key tally) as [e'|] eqn:Hcur; [|lia].
      destruct (Hinv _ _ Hcur) as (n & -> & Hn). lia. }
    destruct (IH _ Hinv' Hrest) as [Hlookup Htotal'].
    cbn [fold_left]. split.
    + intros k. rewrite Hlookup, Hstep. cbn [occurrences].
      pose proof (occurrences_nonneg k rest) as Hocc.
      destruct (String.eqb_spec k key) as [->|Hne].
      * destruct (tally_lookup key tally) as [e'|] eqn:Hcur.
        -- destruct (Hinv _ _ Hcur) as (n & -> & Hn). do 2 f_equal; lia.
        -- destruct (Z.eqb_spec (1 + occurrences key rest) 0); [lia|].
           do 2 f_equal; lia.
      * rewrite Z.add_0_l. reflexivity.
    + rewrite Htotal', Htotal. cbn [length]. lia.
Qed.

(** The tally never holds a key twice. *)
Lemma tally_set_keys k e tally x :
  x ∈ (tally_set k e tally).*1 -> x = k \/ x ∈ tally.*1.
Proof.
  induction tally as [|[k0 e0] rest IH]; cbn.
  - intros Hin. apply list_elem_of_singleton in Hin. auto.
  - destruct (String.eqb_spec k k0) as [->|Hne]; cbn.
    + intros Hin. apply elem_of_cons in Hin as [->|Hin]; [auto|].
      right. apply elem_of_cons. auto.
    + intros Hin. apply elem_of_cons in Hin as [->|Hin].
      * right. apply elem_of_cons. auto.
      * destruct (IH Hin) as [->|Hrest]; [auto|].
        right. apply elem_of_cons. auto.
Qed.

Lemma tally_set_NoDup k e tally :
  NoDup tally.*1 -> NoDup (tally_set k e tally).*1.
Proof.
  induction tally as [|[k0 e0] rest IH]; cbn.
  - intros _. apply NoDup_singleton.
  - intros Hnodup. apply NoDup_cons in Hnodup as [Hnotin Hrest].
    destruct (String.eqb_spec k k0) as [->|Hne]; cbn.
    + apply NoDup_cons. auto.
    + apply NoDup_cons. split; [|exact (IH Hrest)].
      intros Hin. destruct (tally_set_keys _ _ _ _ Hin); congruence.
Qed.

Lemma tally_add_NoDup tally key :
  NoDup tally.*1 -> NoDup (tally_add native_source tally key).*1.
Proof.
  intros Hnodup. unfold tally_add.
  repeat case_match; try exact Hnodup; apply tally_set_NoDup, Hnodup.
Qed.

Lemma tally_fold_NoDup keys : forall tally,
  NoDup tally.*1 -> NoDup (fold_left (tally_add native_source) keys tally).*1.
Proof.
  induction keys as [|key rest IH]; intros tally Hnodup; [exact Hnodup|].
  cbn [fold_left]. apply IH, tally_add_NoDup, Hnodup.
Qed.

(** Enumerating the properties reorders them and loses none. *)
Lemma insert_index_perm p sorted : insert_index p sorted ≡ₚ p :: sorted.
Proof.
  induction sorted as [|q rest IH]; cbn [insert_index]; [reflexivity|].
  destruct (index_of p <? index_of q)%N; [reflexivity|].
  rewrite IH. apply perm_swap.
Qed.

Lemma enumerate_perm props : enumerate props ≡ₚ props.
Proof.
  unfold enumerate.
  assert (Hsort : forall l, foldr insert_index [] l ≡ₚ l).
  { induction l as [|p l IH]; [reflexivity|].
    cbn [foldr]. rewrite insert_index_perm, IH. reflexivity. }
  rewrite Hsort. induction props as [|p rest IH]; [reflexivity|].
  cbn [List.filter]. destruct (is_index p); cbn [negb app].
  - rewrite IH. reflexivity.
  - rewrite <- Permutation_middle, IH. reflexivity.
Qed.

(** The enumeration puts the array indices first, in ascending order, and
    leaves the other keys in the order they had. *)
Lemma insert_index_sorted p sorted :
  StronglySorted (fun x y => (index_of x <= index_of y)%N) sorted ->
  StronglySorted (fun x y => (index_of x <= index_of y)%N)
                 (insert_index p sorted).
Proof.
  induction 1 as [|q rest Hrest IH Hq]; cbn [insert_index].
  - apply SSorted_cons; [apply SSorted_nil|apply Forall_nil_2].
  - destruct (N.ltb_spec (index_of p) (index_of q)) as [Hlt|Hge].
    + apply SSorted_cons; [apply SSorted_cons; assumption|].
      apply Forall_cons_2; [lia|].
      eapply Forall_impl; [exact Hq|]. cbn. intros; lia.
    + apply SSorted_cons; [exact IH|].
      rewrite insert_index_perm. apply Forall_cons_2; assumption.
Qed.

Lemma enumerate_order props :
  exists indices,
    enumerate props
    = indices ++ List.filter (fun p => negb (is_index p)) props
    /\ indices ≡ₚ List.filter is_index props
    /\ StronglySorted (fun x y => (index_of x <= index_of y)%N) indices.
Proof.
  exists (foldr insert_index [] (List.filter is_index props)).
  split; [reflexivity|].
  induction (List.filter is_index props) as [|p l [IHperm IHsorted]];
    [split; [reflexivity|apply SSorted_nil]|].
  cbn [foldr]. split.
  - rewrite insert_index_perm, IHperm. reflexivity.
  - apply insert_index_sorted, IHsorted.
Qed.

Lemma lookup_elem_of k v (props : list (string * value)) :
  NoDup props.*1 -> Obj.lookup k props = Some v <-> (k, v) ∈ props.
Proof.
  induction props as [|[k0 v0] rest IH]; cbn.
  - intros _. split; [discriminate|]. intros Hin.
    apply elem_of_nil in Hin. destruct Hin.
  - intros Hnodup. apply NoDup_cons in Hnodup as [Hnotin Hrest].
    destruct (String.eqb_spec k k0) as [->|Hne].
    + split.
      * intros [= ->]. apply list_elem_of_here.
      * intros Hin. apply elem_of_cons in Hin as [[= ->]|Hin];
          [reflexivity|].
        destruct Hnotin. apply list_elem_of_fmap. exists (k0, v). auto.
    + rewrite (IH Hrest). split.
      * intros Hin. apply list_elem_of_further, Hin.
      * intros Hin. apply elem_of_cons in Hin as [[= -> ->]|Hin];
          [congruence|exact Hin].
Qed.

Lemma lookup_enumerate k (props : list (string * value)) :
  NoDup props.*1 -> Obj.lookup k (enumerate props) = Obj.lookup k props.
Proof.
  intros Hnodup.
  assert (Hnodup' : NoDup (enumerate props).*1)
    by (rewrite enumerate_perm; exact Hnodup).
  apply option_eq. intros v.
  rewrite (lookup_elem_of _ _ _ Hnodup), (lookup_elem_of _ _ _ Hnodup'),
    enumerate_perm.
  reflexivity.
Qed.

Lemma lookup_tally_object k tally :
  NoDup tally.*1 ->
  field k (tally_object tally)
  = from_option entry_value VUndefined (tally_lookup k tally).
Proof.
  intros Hnodup. unfold tally_object, field, Obj.get.
  rewrite lookup_enumerate.
  - induction tally as [|[k0 e0] rest IH]; cbn; [reflexivity|].
    apply NoDup_cons in Hnodup as [_ Hrest].
    destruct (String.eqb k k0); [reflexivity|exact (IH Hrest)].
  - replace ((map (fun ke : string * tally_entry =>
                     let (k0, e) := ke in (k0, entry_value e)) tally).*1)
      with (tally.*1); [exact Hnodup|].
    clear. induction tally as [|[k0 e0] rest IH]; cbn; [reflexivity|].
    f_equal. exact IH.
Qed.

(** X13. The tally counts: when no label names a property of
    [Object.prototype], the object built from the labels [keys] holds
    under each key the number of times the key occurs in [keys], holds
    nothing under a key that does not occur, and its counts add up to the
    number of labels. *)
Theorem tally_counts (keys : list string) :
  Forall (fun key => key ∉ inherited_keys) keys ->
  let tally := fold_left (tally_add native_source) keys [] in
  (forall k,
     field k (tally_object tally)
     = if (occurrences k keys =? 0)%Z then VUndefined
       else VNum (occurrences k keys))
  /\ tally_total tally = Z.of_nat (length keys).
Proof.
  intros Hkeys tally.
  destruct (tally_fold_counts keys [] ltac:(intros ? ? [=]) Hkeys)
    as [Hlookup Htotal].
  split; [|exact Htotal].
  intros k. rewrite lookup_tally_object
    by (apply tally_fold_NoDup, NoDup_nil_2).
  subst tally. rewrite Hlookup.
  cbn [tally_lookup]. destruct (occurrences k keys =? 0)%Z; reflexivity.
Qed.

Lemma tally_note_run tally note :
  match note_key number_text note with
  | Some key =>
      forall w,
        tally_note native_source number_text tally note w
        = (Resolved (tally_add native_source tally key), w)
  | None =>
      exists e,
        (forall w,
           tally_note native_source number_text tally note w = (Rejected e, w))
        /\ err_name e = "TypeError"
  end.
Proof.
  unfold tally_note, note_key. rewrite member_own_read.
  destruct (own_read note "user_note_data") as [user_note_data|]; run.
  - rewrite member_own_read.
    destruct (own_read user_note_data "label") as [label|]; run.
    + unfold to_text. destruct (js_text number_text label); run.
      * reflexivity.
      * eexists. split; reflexivity.
    + eexists. split; reflexivity.
  - eexists. split; reflexivity.
Qed.

Lemma tally_notes_run notes : forall tally w,
  match mapM (note_key number_text) notes with
  | Some keys =>
      tally_notes native_source number_text notes tally w
      = (Resolved (fold_left (tally_add native_source) keys tally), w)
  | None =>
      exists e,
        tally_notes native_source number_text notes tally w = (Rejected e, w)
        /\ err_name e = "TypeError"
  end.
Proof.
  induction notes as [|note rest IH]; intros tally w; [reflexivity|].
  cbn [mapM tally_notes]. pose proof (tally_note_run tally note) as Hnote.
  destruct (note_key number_text note) as [key|]; cbn [mbind option_bind].
  - run. rewrite Hnote.
    specialize (IH (tally_add native_source tally key) w).
    destruct (mapM (note_key number_text) rest) as [keys|]; cbn; exact IH.
  - destruct Hnote as (e & Hrun & Hname). exists e. run. rewrite Hrun.
    split; [reflexivity|exact Hname].
Qed.

(** X14. [getModNotesWithCounts] posts one OAuth GET to [/api/mod/notes]
    with [filter: 'NOTE'] and [limit: 100]; a rejection of the relay or of
    the decoding propagates unchanged. Otherwise the decoded body is
    sanitised once. When its [mod_notes] is an array all of whose notes
    have a readable [user_note_data.label] that converts to a string, the
    call resolves with the tally of the converted labels, taken in order,
    as an object whose keys are enumerated as the language does (array
    indices first and ascending, the others as they first occurred); when
    one note has no [user_note_data] or a label whose conversion throws, or
    [mod_notes] is not an array, the call rejects with a [TypeError] and no
    tally is returned. *)
Theorem getModNotesWithCounts_settles (subreddit user : value) (w : World) :
  let query :=
    VObj [("subreddit", subreddit); ("user", user);
          ("filter", VStr "NOTE"); ("limit", VNum 100)] in
  let w1 :=
    record (EvSendMessage
              (tb_request (VStr "GET") (VStr "/api/mod/notes") query
                          VUndefined (VBool true) (VBool true))) w in
  let call :=
    getModNotesWithCounts native_source number_text subreddit user w in
  exists outcome,
    apiOauthGET (VStr "/api/mod/notes") query w = (outcome, w1)
    /\ match outcome with
       | Rejected e => call = (Rejected e, w1)
       | Resolved r =>
           match Response_json r with
           | inl e => call = (Rejected e, w1)
           | inr data =>
               let w2 := record (EvPurifyObject data) w1 in
               let fails :=
                 exists e, call = (Rejected e, w2) /\ err_name e = "TypeError" in
               match own_read (purifyObject data) "mod_notes" with
               | Some (VArr notes) =>
                   match mapM (note_key number_text) notes with
                   | Some keys =>
                       call
                       = (Resolved
                            (tally_object
                               (fold_left (tally_add native_source) keys [])),
                          w2)
                   | None => fails
                   end
               | _ => fails
               end
           end
       end.
Proof.
  intros query w1 call.
  destruct (apiOauthGET_posts (VStr "/api/mod/notes") query w)
    as [outcome Hrequest].
  exists outcome. split; [exact Hrequest|].
  subst call query. unfold getModNotesWithCounts. run. rewrite Hrequest.
  destruct outcome as [r|e]; [|reflexivity].
  rewrite purified_json_run. destruct (Response_json r) as [e|data];
    [reflexivity|].
  cbv zeta. rewrite member_own_read.
  destruct (own_read (purifyObject data) "mod_notes") as [mod_notes|]; run;
    [|eexists; split; reflexivity].
  destruct mod_notes as [| | | | |notes|]; cbn [forEach_tally]; run;
    try (eexists; split; reflexivity).
  match goal with
  | |- context [tally_notes _ _ notes [] ?w0] =>
      pose proof (tally_notes_run notes [] w0) as Htally
  end.
  destruct (mapM (note_key number_text) notes) as [keys|].
  - rewrite Htally. reflexivity.
  - destruct Htally as (e & -> & Hname). exists e.
    split; [reflexivity|exact Hname].
Qed.

Lemma append_one_truthy s : String.eqb (s +:+ "1") "" = false.
Proof. destruct s; reflexivity. Qed.

Lemma occurrences_app k keys keys' :
  occurrences k (keys ++ keys')
  = (occurrences k keys + occurrences k keys')%Z.
Proof.
  induction keys as [|k' rest IH]; cbn [occurrences app]; [reflexivity|].
  rewrite IH. lia.
Qed.

(** X15. What the tally holds after any page of labels, under every key.
    A key that no label gave is absent. A label that names a property of
    [Object.prototype] is never counted, whatever other labels the page
    mixes it with: under it the tally holds not a number but the text of
    the inherited function with the character [1] appended once for each
    of its occurrences, and under [__proto__] it holds nothing. Every
    other label is counted. *)
Theorem tally_inherited_label (keys : list string) (k : string) :
  tally_lookup k (fold_left (tally_add native_source) keys [])
  = if (occurrences k keys =? 0)%Z then None
    else if String.eqb k "__proto__" then None
    else if bool_decide (k ∈ inherited_keys) then
      Some (Text (Nat.iter (Z.to_nat (occurrences k keys))
                           (fun t => t +:+ "1") (native_source k)))
    else Some (Count (occurrences k keys)).
Proof.
  revert k. induction keys as [|key keys IH] using rev_ind; intros k;
    [reflexivity|].
  rewrite fold_left_app, occurrences_app. cbn [fold_left occurrences].
  rewrite Z.add_0_r.
  pose proof (occurrences_nonneg k keys) as Hocc.
  set (tally := fold_left (tally_add native_source) keys []) in *.
  unfold tally_add.
  destruct (String.eqb_spec key "__proto__") as [->|Hproto].
  { rewrite IH.
    destruct (String.eqb_spec k "__proto__") as [->|Hne].
    - destruct (occurrences "__proto__" keys =? 0)%Z;
        destruct (_ + 1 =? 0)%Z; reflexivity.
    - rewrite Z.add_0_r. reflexivity. }
  assert (Hother : String.eqb k key = false ->
    tally_lookup k tally
    = if (occurrences k keys + 0 =? 0)%Z then None
      else if String.eqb k "__proto__" then None
      else if bool_decide (k ∈ inherited_keys) then
        Some (Text (Nat.iter (Z.to_nat (occurrences k keys + 0))
                             (fun t => t +:+ "1") (native_source k)))
      else Some (Count (occurrences k keys + 0))).
  { intros _. rewrite Z.add_0_r. apply IH. }
  assert (Hgoal : forall e,
    (if (occurrences key keys + 1 =? 0)%Z then None
     else if String.eqb key "__proto__" then None
     else if bool_decide (key ∈ inherited_keys) then
       Some (Text (Nat.iter (Z.to_nat (occurrences key keys + 1))
                            (fun t => t +:+ "1") (native_source key)))
     else Some (Count (occurrences key keys + 1))) = Some e ->
    tally_lookup k (tally_set key e tally)
    = if (occurrences k keys + (if String.eqb k key then 1 else 0) =? 0)%Z
      then None
      else if String.eqb k "__proto__" then None
      else if bool_decide (k ∈ inherited_keys) then
        Some (Text (Nat.iter
                      (Z.to_nat (occurrences k keys
                                 + (if String.eqb k key then 1 else 0)))
                      (fun t => t +:+ "1") (native_source k)))
      else Some (Count (occurrences k keys
                        + (if String.eqb k key then 1 else 0)))).
  { intros e He. rewrite tally_lookup_set.
    destruct (String.eqb_spec k key) as [->|Hne]; [|apply Hother; reflexivity].
    symmetry. exact He. }
  pose proof (occurrences_nonneg key keys) as Hkey.
  assert (Hpos : (occurrences key keys + 1 =? 0)%Z = false)
    by (apply Z.eqb_neq; lia).
  assert (Hnotproto : String.eqb key "__proto__" = false)
    by (apply String.eqb_neq; exact Hproto).
  rewrite (IH key), Hnotproto.
  destruct (Z.eqb_spec (occurrences key keys) 0) as [Hzero|Hnonzero].
  - destruct (bool_decide (key ∈ inherited_keys)) eqn:Hinherited;
      apply Hgoal; rewrite Hpos, Hnotproto, Hzero; reflexivity.
  - destruct (bool_decide (key ∈ inherited_keys)) eqn:Hinherited.
    + rewrite (proj2 (String.eqb_neq _ _)).
      * apply Hgoal. rewrite Hpos, Hnotproto.
        replace (Z.to_nat (occurrences key keys + 1))
          with (S (Z.to_nat (occurrences key keys))) by lia.
        reflexivity.
      * destruct (Z.to_nat (occurrences key keys)) as [|n] eqn:Hn; [lia|].
        rewrite Nat.iter_succ. intros Hempty.
        pose proof (append_one_truthy
                      (Nat.iter n (fun t => t +:+ "1") (native_source key)))
          as Htruthy.
        rewrite Hempty in Htruthy. discriminate.
    + destruct (Z.eqb_spec (occurrences key keys) 0) as [|_]; [lia|].
      apply Hgoal. rewrite Hpos, Hnotproto. reflexivity.
Qed.

(** ** Posting a comment *)

Lemma template_text prefix v name w :
  js_text number_text v = Some name ->
  template number_text prefix v w = (Resolved (VStr (prefix +:+ name)), w).
Proof. intros Hname. unfold template, to_text. rewrite Hname. reflexivity. Qed.

Lemma template_throws prefix v w :
  js_text number_text v = None ->
  template number_text prefix v w
  = (Rejected (TypeError "Cannot convert object to primitive value"), w).
Proof. intros Hname. unfold template, to_text. rewrite Hname. reflexivity. Qed.

Lemma pure_has_own v k : pure (has_own v k).
Proof. destruct v; first [apply pure_throw | apply pure_ret]. Qed.

Lemma pure_gt_zero v : pure (gt_zero string_gt_zero number_text v).
Proof.
  destruct v; try first [apply pure_throw | apply pure_ret].
  - unfold gt_zero, to_text.
    destruct (js_text number_text (VArr elems));
      [apply pure_ret|apply pure_throw].
  - unfold gt_zero. destruct (bool_decide _);
      first [apply pure_throw | apply pure_ret].
Qed.

Lemma pure_errors_reported response :
  pure (errors_reported string_gt_zero number_text response).
Proof.
  unfold errors_reported.
  apply pure_bind; [apply pure_member|intros json].
  apply pure_bind; [apply pure_has_own|intros [|]]; [|apply pure_ret].
  apply pure_bind; [apply pure_member|intros json'].
  apply pure_bind; [apply pure_member|intros errors].
  apply pure_bind; [apply pure_member|intros len]. apply pure_gt_zero.
Qed.

(** When the condition could be evaluated, [response.json] is an object or
    another value with properties, so its fields can be read. *)
Lemma errors_reported_json response reported w :
  errors_reported string_gt_zero number_text response w
  = (Resolved reported, w) ->
  exists json,
    own_read response "json" = Some json
    /\ json <> VUndefined /\ json <> VNull
    /\ forall k w0,
         response_json_field response k w0
         = (Resolved (default VUndefined (own_read json k)), w0).
Proof.
  unfold errors_reported, response_json_field.
  rewrite !member_own_read.
  destruct (own_read response "json") as [json|]; run; [|discriminate].
  intros Hrun. exists json. split; [reflexivity|].
  destruct json; cbn [has_own] in Hrun; run; try discriminate;
    (split; [discriminate|]); (split; [discriminate|]);
    intros k w0; reflexivity.
Qed.

Ltac run_comment :=
  unfold postComment, L_try_catch, run_M, logger_log, throw_any;
  unfold mbind, L_bind, mret, L_ret; cbn [fst snd].

(** The ways [postComment] can go once the modhash is known, for a parent
    that converts to the text [name]. *)
Lemma postComment_run m parent text w log uh outcome w1 name :
  js_text number_text parent = Some name ->
  getModhash m w = (Resolved uh, w) ->
  post (VStr "/api/comment")
       (VObj [("parent", parent); ("uh", uh); ("text", text);
              ("api_type", VStr "json")]) VUndefined w = (outcome, w1) ->
  let link := inr (VStr ("Failed to post link to on " +:+ name)) in
  let call := postComment string_gt_zero number_text m parent text (w, log) in
  match outcome with
  | Rejected e => call = (Rejected (inl e), (w1, log ++ [link; inl e]))
  | Resolved response =>
      match (errors_reported string_gt_zero number_text response w1).1 with
      | Rejected e => call = (Rejected (inl e), (w1, log ++ [link; inl e]))
      | Resolved false =>
          call
          = (Resolved response,
             (w1, log ++ [inr (VStr ("Successfully posted comment on "
                                       +:+ name))]))
      | Resolved true =>
          exists json,
            own_read response "json" = Some json
            /\ call
               = (Rejected (inr (default VUndefined (own_read json "errors"))),
                  (w1,
                   log ++ [inr (VStr ("Failed to post comment to on "
                                        +:+ name));
                           inr (default VUndefined (own_read json "fails"));
                           link;
                           inr (default VUndefined (own_read json "errors"))]))
      end
  end.
Proof.
  intros Hname Hmodhash Hpost link call. subst link call.
  run_comment.
  rewrite Hmodhash. cbn [fst snd]. rewrite Hpost. cbn [fst snd].
  destruct outcome as [response|e].
  2: { rewrite (template_text _ _ _ _ Hname). cbn [fst snd].
       rewrite <- app_assoc. reflexivity. }
  destruct (pure_errors_reported response) as [reported Hreported].
  cbn [fst snd]. rewrite (Hreported w1). cbn [fst snd].
  destruct reported as [[|]|e].
  - destruct (errors_reported_json _ _ _ (Hreported w1))
      as (json & Hjson & _ & _ & Hfield).
    exists json. split; [exact Hjson|].
    rewrite (template_text _ _ _ _ Hname). cbn [fst snd].
    rewrite !Hfield. cbn [fst snd].
    rewrite (template_text _ _ _ _ Hname). cbn [fst snd].
    rewrite <- !app_assoc. reflexivity.
  - rewrite (template_text _ _ _ _ Hname). reflexivity.
  - rewrite (template_text _ _ _ _ Hname). cbn [fst snd].
    rewrite <- app_assoc. reflexivity.
Qed.

Lemma postComment_without_modhash_aux m parent text w log e name :
  js_text number_text parent = Some name ->
  getModhash m w = (Rejected e, w) ->
  postComment string_gt_zero number_text m parent text (w, log)
  = (Rejected (inl e),
     (w, log ++ [inr (VStr ("Failed to post link to on " +:+ name)); inl e])).
Proof.
  intros Hname Hmodhash. run_comment.
  rewrite Hmodhash. cbn [fst snd].
  rewrite (template_text _ _ _ _ Hname). cbn [fst snd].
  rewrite <- app_assoc. reflexivity.
Qed.

(** With a parent whose conversion to a string throws, every path ends in
    the template literal of the [catch] block. *)
Lemma postComment_unconvertible m parent text w log :
  js_text number_text parent = None ->
  let thrown : Err := TypeError "Cannot convert object to primitive value" in
  let call := postComment string_gt_zero number_text m parent text (w, log) in
  match (getModhash m w).1 with
  | Rejected _ => call = (Rejected (inl thrown), (w, log))
  | Resolved uh =>
      call
      = (Rejected (inl thrown),
         ((post (VStr "/api/comment")
                (VObj [("parent", parent); ("uh", uh); ("text", text);
                       ("api_type", VStr "json")]) VUndefined w).2, log))
  end.
Proof.
  intros Hname thrown call. subst thrown call.
  destruct (getModhash_settles m) as [outcome Hpure]. rewrite (Hpure w).
  cbn [fst]. run_comment. rewrite (Hpure w). cbn [fst snd].
  destruct outcome as [uh|e]; cbn [fst snd].
  2: { rewrite (template_throws _ _ _ Hname). reflexivity. }
  destruct (post _ _ _ w) as [[response|e] w1]; cbn [fst snd].
  2: { rewrite (template_throws _ _ _ Hname). reflexivity. }
  destruct (pure_errors_reported response) as [reported Hreported].
  rewrite (Hreported w1). cbn [fst snd].
  destruct reported as [[|]|e];
    rewrite ?(template_throws _ _ _ Hname); cbn [fst snd];
    rewrite ?(template_throws _ _ _ Hname); reflexivity.
Qed.

(** X16. [postComment] reads the modhash inside its [try]: when
    [getModhash] rejects, nothing is posted. For a parent that converts to
    a string, the failure is logged as a failed link and then, unchanged,
    as the error, and the call rejects with that same error. For a parent
    whose conversion throws, the template literal of the [catch] block
    throws: the call rejects with that [TypeError] instead, and nothing is
    logged. *)
Theorem postComment_without_modhash
    (m : ApiModule) (parent text : value) (w : World) (log : list Thrown)
    (e : Err) :
  (getModhash m w).1 = Rejected e ->
  let call := postComment string_gt_zero number_text m parent text (w, log) in
  (forall name,
     js_text number_text parent = Some name ->
     call
     = (Rejected (inl e),
        (w, log ++ [inr (VStr ("Failed to post link to on " +:+ name));
                    inl e])))
  /\ (js_text number_text parent = None ->
      exists thrown,
        call = (Rejected (inl thrown), (w, log))
        /\ err_name thrown = "TypeError").
Proof.
  intros Hmodhash call. subst call. split.
  - intros name Hname. destruct (getModhash_settles m) as [outcome Hpure].
    rewrite Hpure in Hmodhash. cbn [fst] in Hmodhash. subst outcome.
    apply postComment_without_modhash_aux; [exact Hname|apply Hpure].
  - intros Hname.
    pose proof (postComment_unconvertible m parent text w log Hname) as Hrun.
    cbv zeta in Hrun. rewrite Hmodhash in Hrun.
    eexists. split; [exact Hrun|reflexivity].
Qed.


(** The condition on a response whose [json] is an object: it holds when
    the object has an own [errors] that is a non-empty array. *)
Lemma errors_reported_object response json w :
  own_read response "json" = Some (VObj json) ->
  (Obj.lookup "errors" json = None ->
   errors_reported string_gt_zero number_text response w = (Resolved false, w))
  /\ (forall errs,
        Obj.lookup "errors" json = Some (VArr errs) ->
        errors_reported string_gt_zero number_text response w
        = (Resolved (0 <? Z.of_nat (length errs))%Z, w)).
Proof.
  intros Hjson. unfold errors_reported. rewrite !member_own_read, Hjson.
  run. cbn [has_own]. run. split.
  - intros ->. reflexivity.
  - intros errs Herrors. rewrite bool_decide_eq_true_2 by eauto.
    cbn [member]. run. unfold Obj.get. rewrite Herrors. reflexivity.
Qed.

(** X18. When the modhash is known, the parent converts to the text
    [name] and the posted comment comes back as a response whose [json] is
    an object: without an own [errors], or with an empty array of errors,
    [postComment] resolves with the response and logs the success; with a
    non-empty array of errors it rejects with that very array, not with an
    [Error], after logging the failed comment, the [fails] of the response,
    the failed link and the array. *)
Theorem postComment_api_errors
    (m : ApiModule) (parent text : value) (w : World) (log : list Thrown)
    (uh response : value) (json : list (string * value)) (w1 : World)
    (name : string) :
  (getModhash m w).1 = Resolved uh ->
  js_text number_text parent = Some name ->
  post (VStr "/api/comment")
       (VObj [("parent", parent); ("uh", uh); ("text", text);
              ("api_type", VStr "json")]) VUndefined w
  = (Resolved response, w1) ->
  own_read response "json" = Some (VObj json) ->
  let line s := inr (VStr (s +:+ name)) : Thrown in
  let call := postComment string_gt_zero number_text m parent text (w, log) in
  (Obj.lookup "errors" json = None \/ Obj.lookup "errors" json = Some (VArr []) ->
   call = (Resolved response,
           (w1, log ++ [line "Successfully posted comment on "])))
  /\ (forall errs,
        errs <> [] ->
        Obj.lookup "errors" json = Some (VArr errs) ->
        call
        = (Rejected (inr (VArr errs)),
           (w1, log ++ [line "Failed to post comment to on ";
                        inr (Obj.get "fails" json);
                        line "Failed to post link to on ";
                        inr (VArr errs)]))).
Proof.
  intros Hmodhash Hname Hpost Hjson line call.
  destruct (getModhash_settles m) as [outcome Hpure].
  rewrite Hpure in Hmodhash. cbn [fst] in Hmodhash. subst outcome.
  pose proof (postComment_run m parent text w log uh _ _ name
                Hname (Hpure w) Hpost)
    as Hrun. subst call line. cbv beta iota zeta in Hrun |- *.
  destruct (errors_reported_object response json w1 Hjson)
    as [Hnone Harray].
  split.
  - intros [Herrors|Herrors].
    + rewrite (Hnone Herrors) in Hrun. exact Hrun.
    + rewrite (Harray _ Herrors) in Hrun. exact Hrun.
  - intros errs Hnonempty Herrors.
    rewrite (Harray _ Herrors) in Hrun.
    destruct errs as [|err errs]; [congruence|].
    cbn [fst length] in Hrun.
    replace (0 <? Z.of_nat (S (length errs)))%Z with true in Hrun
      by (symmetry; apply Z.ltb_lt; lia).
    destruct Hrun as (json' & Hjson' & Hcall).
    rewrite Hjson in Hjson'. injection Hjson' as <-.
    assert (Hget : Obj.get "errors" json = VArr (err :: errs))
      by (unfold Obj.get; rewrite Herrors; reflexivity).
    cbn [own_read default from_option id] in Hcall.
    rewrite Hget in Hcall. exact Hcall.
Qed.

End more_properties.

(** * The identity promise while it is pending *)

Section pending_properties.
Context {host : Platform}.

#[local] Existing Instances M_ret M_bind.

Ltac run :=
  unfold mbind, M_bind, mret, M_ret, throw, lift, await, try_catch in *;
  cbn beta iota in *.
















End pending_properties.

(** * Worked examples on the example host *)

Lemma sendRequest_error_envelope_example :
  (exists e,
     sendRequest (VObj me_descriptor) world_timeout
     = (Rejected e, record (EvSendMessage me_request) world_timeout)
     /\ err_name e = "Error"
     /\ err_message e = "Gateway Timeout"
     /\ err_response e = Some (mkExResponse 504 (Some "busy")))
  /\ (exists e,
     sendRequest (VObj me_descriptor) world_offline
     = (Rejected e, record (EvSendMessage me_request) world_offline)
     /\ err_name e = "Error"
     /\ err_message e = "Failed to fetch"
     /\ err_response e = None).
Proof.
  split.
  - destruct (@sendRequest_error_envelope example me_descriptor world_timeout
                timeout_envelope "Gateway Timeout"
                eq_refl eq_refl eq_refl)
      as (e & Hrun & Hname & Hmessage & _ & Hpresent & _).
    { intros v [= <-]. eexists _, _. split; reflexivity. }
    exists e. repeat split; try assumption.
    destruct (Hpresent _ eq_refl) as (r & [= <-] & Hr). exact Hr.
  - destruct (@sendRequest_error_envelope example me_descriptor world_offline
                offline_envelope "Failed to fetch"
                eq_refl eq_refl eq_refl)
      as (e & Hrun & Hname & Hmessage & _ & _ & Habsent).
    { intros v [=]. }
    exists e. repeat split; try assumption. exact (Habsent eq_refl).
Defined.

Lemma sendRequest_success_envelope_example :
  sendRequest (VObj me_descriptor) world_ok
  = (Resolved (mkExResponse 200 (Some "me")),
     record (EvSendMessage me_request) world_ok)
  /\ @Response_status example (mkExResponse 200 (Some "me")) = 200%Z
  /\ @Response_text example (mkExResponse 200 (Some "me")) = "me".
Proof.
  destruct (@sendRequest_success_envelope example me_descriptor world_ok
              ok_envelope [VStr "me"; VObj [("status", VNum 200)]]
              (mkExResponse 200 (Some "me"))
              eq_refl eq_refl eq_refl eq_refl)
    as (Hrun & Hstatus & Htext).
  split; [exact Hrun|]. split.
  - apply (Hstatus _ _ _ _ eq_refl eq_refl). lia.
  - apply (Htext _ _ eq_refl).
Defined.

Lemma sendRequest_success_without_response_example :
  exists e,
    sendRequest (VObj me_descriptor) world_empty_reply
    = (Rejected e, record (EvSendMessage me_request) world_empty_reply)
    /\ err_name e = "TypeError"
    /\ err_response e = None.
Proof.
  exact (proj1 (@sendRequest_success_without_response example me_descriptor
                  world_empty_reply [] eq_refl eq_refl) eq_refl).
Defined.

Lemma fetchUserDetails_retry_policy_example :
  (exists e,
     fetchUserDetails 3 world_timeouts
     = (Rejected e, attempt_world 3 world_timeouts))
  /\ sent (fetchUserDetails 3 world_timeouts).2
     = [me_request; me_request; me_request]
  /\ fetchUserDetails 3 world_offline
     = (Rejected (mkError "Error" "Failed to fetch" None),
        attempt_world 1 world_offline).
Proof.
  destruct (@fetchUserDetails_retry_policy example world_timeouts)
    as (n & _ & _ & Hsent & _ & Hthree & _).
  destruct Hthree as [-> Hrejected].
  { intros k Hk. destruct k as [|[|[|k]]]; [| | |lia];
      eexists _, _; (split; [vm_compute; reflexivity|split; reflexivity]). }
  split; [exact Hrejected|]. split; [exact Hsent|].
  destruct (@fetchUserDetails_retry_policy example world_offline)
    as (n & _ & _ & _ & _ & _ & Hfirst).
  apply (Hfirst (mkError "Error" "Failed to fetch" None) eq_refl).
  intros (r & Hr & _). discriminate Hr.
Defined.

Lemma userDetailsPromise_falls_back_example :
  exists m,
    module_load world_offline
    = (m, record (EvGetCache "Utils" "userDetails")
                 (record (EvSendMessage me_request) world_offline))
    /\ userDetailsPromise m = Resolved me_json.
Proof.
  destruct (@userDetailsPromise_falls_back example world_offline
              (mkError "Error" "Failed to fetch" None)
              (record (EvSendMessage me_request) world_offline) eq_refl)
    as (m & Hload & Hpromise & _).
  exists m. split; [exact Hload|]. rewrite Hpromise. reflexivity.
Defined.

Lemma fetchUserDetails_first_success_example :
  fetchUserDetails 3 world_ok
  = (Resolved (example_purify me_json), stored_world me_json world_ok)
  /\ sent (stored_world me_json world_ok) = [me_request]
  /\ module_load world_ok
     = (mkModule (Resolved (example_purify me_json)),
        stored_world me_json world_ok).
Proof.
  destruct (@fetchUserDetails_first_success example world_ok me_json
              (record (EvSendMessage me_request) world_ok) eq_refl)
    as (Hrun & Hsent & _ & Hload).
  split; [exact Hrun|]. split; [exact Hsent|exact Hload].
Defined.

Lemma wrapper_descriptor_table_example :
  field "okOnly" (getJSON_options (VStr "/api/me.json") VUndefined VUndefined)
  = VBool true
  /\ field "oauth"
       (apiOauthPOST_options (VStr "/api/lock") (VObj [("id", VStr "t3_a")])
                             (VObj [("okOnly", VBool false)]))
     = VBool true
  /\ field "okOnly"
       (apiOauthPOST_options (VStr "/api/lock") (VObj [("id", VStr "t3_a")])
                             (VObj [("okOnly", VBool false)]))
     = VBool false.
Proof.
  split; [|split].
  - apply (proj1 (proj1 (proj2 (proj2
      (@wrapper_descriptor_table example (VStr "/api/me.json") VUndefined
         VUndefined VUndefined))) eq_refl)).
  - apply (proj2 (proj2 (proj1 (proj2 (proj2 (proj2 (proj2
      (@wrapper_descriptor_table example (VStr "/api/lock") VUndefined
         (VObj [("id", VStr "t3_a")]) (VObj [("okOnly", VBool false)]))))))
      eq_refl))).
  - apply (proj2 (proj2 (proj1 (proj2 (proj2 (proj2 (proj2 (proj2
      (@wrapper_descriptor_table example (VStr "/api/lock") VUndefined
         (VObj [("id", VStr "t3_a")]) (VObj [("okOnly", VBool false)])))))))
      [("okOnly", VBool false)] "okOnly" (VBool false) eq_refl
      ltac:(apply NoDup_singleton) eq_refl))).
Defined.

Lemma getModhash_getCurrentUser_read_example :
  (getModhash (module_load world_ok).1 world_ok
   = (Resolved (VStr "k3y"), world_ok)
   /\ getCurrentUser (module_load world_ok).1 world_ok
      = (Resolved (VStr "alice"), world_ok))
  /\ (exists e,
        getModhash (module_load world_down).1 world_down
        = (Rejected e, world_down)
        /\ getCurrentUser (module_load world_down).1 world_down
           = (Rejected e, world_down)
        /\ err_name e = "TypeError").
Proof.
  split.
  - apply (proj1 (proj2 (proj2
      (@getModhash_getCurrentUser_read example (module_load world_ok).1
         world_ok (example_purify me_json) eq_refl)))
      _ [("name", VStr "alice"); ("modhash", VStr "k3y");
         ("subreddit", VObj [("title", VStr "")])] eq_refl eq_refl).
  - apply (proj2 (proj2 (proj2
      (@getModhash_getCurrentUser_read example (module_load world_down).1
         world_down VUndefined eq_refl))) eq_refl).
Defined.

(** With [okOnly: false] among its options, [getJSON] relays a request
    whose [okOnly] is false, and [options] likewise replaces the method and
    the [oauth] flag of [post] and [apiOauthPOST]. *)
Lemma wrapper_options_override :
  let options :=
    VObj [("okOnly", VBool false); ("oauth", VBool false);
          ("method", VStr "PUT")] in
  field "okOnly" (getJSON_options (VStr "/api/me.json") VUndefined options)
  = VBool false
  /\ field "okOnly" (getJSON_options (VStr "/api/me.json") VUndefined options)
     <> VBool true
  /\ field "method" (post_options (VStr "/api/remove") (VObj []) options)
     = VStr "PUT"
  /\ field "oauth" (apiOauthPOST_options (VStr "/api/lock") (VObj []) options)
     = VBool false
  /\ sent (getJSON (VStr "/api/me.json") VUndefined options world_ok).2
     = [tb_request (VStr "PUT") (VStr "/api/me.json") (VObj []) VUndefined
                   (VBool false) (VBool false)].
Proof.
  cbv zeta. split; [reflexivity|]. split; [discriminate|].
  split; [reflexivity|]. split; reflexivity.
Qed.

(** * Worked examples for the rest of the module *)


Lemma fetchUserDetails_success_effects_example :
  exists (n : nat) (data : value),
    (1 <= n <= 3)%nat
    /\ (let before :=
          mkWorld (background world_retry)
                  (trace world_retry
                     ++ replicate (n - 1) (EvSendMessage me_request))
                  (cache world_retry) in
        getJSON (VStr "/api/me.json") VUndefined VUndefined before
        = (Resolved data, record (EvSendMessage me_request) before))
    /\ example_purify me_json = example_purify data
    /\ (fetchUserDetails 3 world_retry).2
       = mkWorld (background world_retry)
           (trace world_retry ++ replicate n (EvSendMessage me_request)
              ++ [EvPurifyObject data;
                  EvSetCache "Utils" "userDetails" (example_purify me_json)])
           (<[("Utils", "userDetails") := example_purify me_json]>
              (cache world_retry)).
Proof.
  exact (@fetchUserDetails_success_effects example world_retry
           (example_purify me_json) (fetchUserDetails 3 world_retry).2
           eq_refl).
Defined.

Lemma fetchUserDetails_failure_effects_example :
  exists n : nat,
    (1 <= n <= 3)%nat
    /\ (fetchUserDetails 3 world_timeouts).2
       = mkWorld (background world_timeouts)
           (trace world_timeouts ++ replicate n (EvSendMessage me_request))
           (cache world_timeouts).
Proof.
  exact (@fetchUserDetails_failure_effects example world_timeouts
           (mkError "Error" "Gateway Timeout"
                    (Some (mkExResponse 504 (Some "busy"))))
           (fetchUserDetails 3 world_timeouts).2 eq_refl).
Defined.

Lemma mod_actions_wait_for_modhash_example :
  exists e,
    distinguishThing signed_out (VStr "t1_c") (VBool true) (site_world [])
    = (Rejected e, site_world [])
    /\ removeThing signed_out (VStr "t1_c") VUndefined (site_world [])
       = (Rejected e, site_world [])
    /\ lock signed_out (VStr "t3_p") (site_world [])
       = (Rejected e, site_world []).
Proof.
  eexists.
  exact (@mod_actions_wait_for_modhash site signed_out (site_world []) _
           (VStr "t1_c") (VBool true) VUndefined eq_refl).
Defined.

Lemma mod_actions_post_example :
  exists outcome,
    removeThing signed_in (VStr "t1_c") VUndefined (site_world ["accepted"])
    = (outcome,
       record (EvSendMessage
                 (tb_request (VStr "POST") (VStr "/api/remove") VUndefined
                    (VObj [("uh", VStr "k3y"); ("id", VStr "t1_c");
                           ("spam", VBool false)])
                    VUndefined (VBool true))) (site_world ["accepted"])).
Proof.
  exact (proj1 (proj2
           (@mod_actions_post site signed_in (site_world ["accepted"])
              (VStr "k3y") (VStr "t1_c") (VBool true) VUndefined eq_refl))).
Defined.

Lemma getRecentModNotes_settles_example :
  (exists e,
     getRecentModNotes example_number_text (VStr "aww") (VArr [VStr "alice"])
                       (site_world ["notes"])
     = (Rejected e, site_world ["notes"])
     /\ err_name e = "TypeError")
  /\ (exists e,
        getRecentModNotes example_number_text
          (VArr [VStr "aww"; VObj [("toString", VNum 1)]])
          (VArr [VStr "alice"; VStr "bob"]) (site_world ["notes"])
        = (Rejected e, site_world ["notes"])
        /\ err_name e = "TypeError")
  /\ getRecentModNotes example_number_text
       (VArr [VStr "aww"; VNull; VNum (10 ^ 21)])
       (VArr [VStr "alice"; VArr [VStr "bob"; VNum 7]; VStr "carol"])
       (site_world ["notes"])
     = (Resolved (field "mod_notes" (example_purify notes_page)),
        record (EvPurifyObject notes_page)
          (record
             (EvSendMessage
                (tb_request (VStr "GET") (VStr "/api/mod/notes/recent")
                   (VObj [("subreddits", VStr "aww,,1e+21");
                          ("users", VStr "alice,bob,7,carol")])
                   VUndefined (VBool true) (VBool true)))
             (site_world ["notes"]))).
Proof.
  split; [|split].
  - apply (proj1 (@getRecentModNotes_settles site example_number_text
                    (VStr "aww") (VArr [VStr "alice"])
                    (site_world ["notes"]))).
    left. reflexivity.
  - apply (proj1 (@getRecentModNotes_settles site example_number_text
                    (VArr [VStr "aww"; VObj [("toString", VNum 1)]])
                    (VArr [VStr "alice"; VStr "bob"])
                    (site_world ["notes"]))).
    left. reflexivity.
  - destruct (proj2 (proj2 (@getRecentModNotes_settles site example_number_text
                    (VArr [VStr "aww"; VNull; VNum (10 ^ 21)])
                    (VArr [VStr "alice"; VArr [VStr "bob"; VNum 7];
                           VStr "carol"])
                    (site_world ["notes"])))
                "aww,,1e+21" "alice,bob,7,carol" eq_refl eq_refl)
      as (outcome & Hrequest & Hsettles).
    injection Hrequest as <-. exact Hsettles.
Defined.

Lemma mod_note_writes_example :
  (exists e,
     createModNote VUndefined (site_world ["accepted"])
     = (Rejected e, site_world ["accepted"])
     /\ deleteModNote VUndefined (site_world ["accepted"])
        = (Rejected e, site_world ["accepted"])
     /\ err_name e = "TypeError")
  /\ exists outcome,
       deleteModNote (VObj [("user", VStr "alice"); ("id", VStr "n1")])
                     (site_world ["accepted"])
       = (outcome,
          record (EvSendMessage
                    (tb_request (VStr "DELETE") (VStr "/api/mod/notes")
                       (VObj [("subreddit", VUndefined);
                              ("user", VStr "alice");
                              ("note_id", VStr "n1")])
                       VUndefined (VBool true) (VBool true)))
                 (site_world ["accepted"])).
Proof.
  split.
  - apply (proj1 (@mod_note_writes site VUndefined (site_world ["accepted"]))).
    left. reflexivity.
  - apply (proj2 (@mod_note_writes site
                    (VObj [("user", VStr "alice"); ("id", VStr "n1")])
                    (site_world ["accepted"])));
      discriminate.
Defined.

Lemma tally_counts_example :
  let tally :=
    fold_left (tally_add example_native_source)
              ["BAN"; "SPAM_WATCH"; "BAN"] [] in
  field "BAN" (tally_object tally) = VNum 2
  /\ field "SPAM_WATCH" (tally_object tally) = VNum 1
  /\ field "ABUSE_WARNING" (tally_object tally) = VUndefined
  /\ tally_total tally = 3%Z.
Proof.
  assert (Hkeys : Forall (fun key => key ∉ inherited_keys)
                         ["BAN"; "SPAM_WATCH"; "BAN"]).
  { repeat (apply Forall_cons; split); [..|apply Forall_nil];
      apply (bool_decide_unpack _); reflexivity. }
  destruct (tally_counts example_native_source _ Hkeys) as [Hcount Htotal].
  split; [exact (Hcount "BAN")|]. split; [exact (Hcount "SPAM_WATCH")|].
  split; [exact (Hcount "ABUSE_WARNING")|exact Htotal].
Defined.

Lemma getModNotesWithCounts_settles_example :
  (getModNotesWithCounts example_native_source example_number_text
     (VStr "aww") (VStr "alice") (site_world ["numbered"])).1
  = Resolved (VObj [("1", VNum 1); ("2", VNum 2); ("b", VNum 1);
                    ("01", VNum 1); ("1e+21", VNum 1)])
  /\ exists e,
       (getModNotesWithCounts example_native_source example_number_text
          (VStr "aww") (VStr "alice") (site_world ["unlabelled"])).1
       = Rejected e
       /\ err_name e = "TypeError".
Proof.
  split.
  - destruct (@getModNotesWithCounts_settles site example_native_source
                example_number_text (VStr "aww") (VStr "alice")
                (site_world ["numbered"]))
      as (outcome & Hrequest & Hsettles).
    injection Hrequest as <-.
    exact (f_equal fst Hsettles).
  - destruct (@getModNotesWithCounts_settles site example_native_source
                example_number_text (VStr "aww") (VStr "alice")
                (site_world ["unlabelled"]))
      as (outcome & Hrequest & Hsettles).
    injection Hrequest as <-.
    destruct Hsettles as (e & Hcall & Hname).
    exists e. split; [exact (f_equal fst Hcall)|exact Hname].
Defined.

Lemma tally_inherited_label_example :
  let tally :=
    fold_left (tally_add example_native_source)
              ["BAN"; "constructor"; "BAN"; "__proto__"; "constructor";
               "toString"] [] in
  tally_lookup "constructor" tally
  = Some (Text "function Object() { [native code] }11")
  /\ tally_lookup "toString" tally
     = Some (Text "function toString() { [native code] }1")
  /\ tally_lookup "__proto__" tally = None
  /\ tally_lookup "BAN" tally = Some (Count 2)
  /\ tally_lookup "valueOf" tally = None.
Proof.
  pose proof (tally_inherited_label example_native_source
                ["BAN"; "constructor"; "BAN"; "__proto__"; "constructor";
                 "toString"]) as Hlookup.
  cbv zeta.
  split; [exact (Hlookup "constructor")|].
  split; [exact (Hlookup "toString")|].
  split; [exact (Hlookup "__proto__")|].
  split; [exact (Hlookup "BAN")|exact (Hlookup "valueOf")].
Defined.

Lemma postComment_without_modhash_example :
  (exists e,
     postComment example_string_gt_zero example_number_text signed_out
                 (VStr "t3_p") (VStr "hello") (site_world ["accepted"], [])
     = (Rejected (inl e),
        (site_world ["accepted"],
         [inr (VStr "Failed to post link to on t3_p"); inl e])))
  /\ exists thrown,
       postComment example_string_gt_zero example_number_text signed_out
                   (VObj [("toString", VStr "t3_p")]) (VStr "hello")
                   (site_world ["accepted"], [])
       = (Rejected (inl thrown), (site_world ["accepted"], []))
       /\ err_name thrown = "TypeError".
Proof.
  split.
  - eexists.
    exact (proj1 (@postComment_without_modhash site example_string_gt_zero
                    example_number_text signed_out (VStr "t3_p")
                    (VStr "hello") (site_world ["accepted"]) [] _ eq_refl)
                 "t3_p" eq_refl).
  - exact (proj2 (@postComment_without_modhash site example_string_gt_zero
                    example_number_text signed_out
                    (VObj [("toString", VStr "t3_p")])
                    (VStr "hello") (site_world ["accepted"]) [] _ eq_refl)
                 eq_refl).
Defined.


Lemma postComment_api_errors_example :
  let errors :=
    VArr [VArr [VStr "TOO_LONG"; VStr "this is too long"; VStr "text"]] in
  (postComment example_string_gt_zero example_number_text signed_in
               (VStr "t3_p") (VStr "hello") (site_world ["refused"], [])).1
  = Rejected (inr errors)
  /\ (postComment example_string_gt_zero example_number_text signed_in
                  (VStr "t3_p") (VStr "hello") (site_world ["refused"], [])).2.2
     = [inr (VStr "Failed to post comment to on t3_p"); inr VUndefined;
        inr (VStr "Failed to post link to on t3_p"); inr errors].
Proof.
  destruct
    (@postComment_api_errors site example_string_gt_zero example_number_text
       signed_in (VStr "t3_p") (VStr "hello") (site_world ["refused"]) []
       (VStr "k3y") comment_refused
       [("errors",
         VArr [VArr [VStr "TOO_LONG"; VStr "this is too long"; VStr "text"]])]
       _ "t3_p" eq_refl eq_refl eq_refl eq_refl) as [_ Herrors].
  assert (Hnonempty :
    [VArr [VStr "TOO_LONG"; VStr "this is too long"; VStr "text"]] <> [])
    by discriminate.
  pose proof (Herrors _ Hnonempty eq_refl) as Hcall.
  cbv zeta. rewrite Hcall. split; reflexivity.
Defined.

